(** * Hip3: a shallow embedding of the market collector and the vault query service

    The repository holds two Python scripts:
    - [hip3.py], which polls a market-data HTTP API once per configured
      deployer, filters the answer and appends rows to an SQLite table;
    - [web_query.py], a Flask application that answers filter / sort /
      aggregate requests over a table of vault snapshots.

    Conventions of the embedding.
    - In [hip3.py] a Python float is a binary64 number, Rocq's primitive
      [float], with the rounding, the infinities and the NaN of IEEE 754;
      a Python int is an integer of [Z].
    - In [web_query.py] an SQLite REAL value, and a float computed from
      such values, is the rational number it denotes ([Q]) and arithmetic is
      exact: a figure is described by its formula, and the rounding of the
      figure is outside the model.
    - A Python [str] is the string of its bytes.
    - A decoded JSON document is a value of [json]; a Python [dict] decoded
      from JSON is an association list with one entry per key.
    - A Python exception is a value of [exn]; code that may raise returns a
      [result].
    - An SQL NULL is [None], and NaN in a REAL column of [hip3.py].
    - Text written to standard output is not modelled: the report of the
      collector is the record of the values it prints. An exception raised
      while a line is formatted is modelled. *)

From Stdlib Require Import Floats.
From Stdlib Require Import List ZArith QArith Qabs String Ascii Bool Lia Lqa.
From Stdlib Require Import Permutation Sorted DecimalString.
Import ListNotations.

Local Open Scope Z_scope.
Local Open Scope list_scope.

(** ** Python values and exceptions *)

(** A document as [json.loads] builds it. A number written without fraction
    and exponent is an [int], any other number a [float]; the decoder reads
    a literal beyond the range of binary64 as an infinity and accepts the
    tokens [NaN] and [Infinity]. *)
#[warnings="-register-all"]
Inductive json : Type :=
| JNull
| JBool (b : bool)
| JInt (n : Z)
| JFloat (f : float)
| JStr (s : string)
| JList (l : list json)
| JObj (kvs : list (string * json)).

Inductive exn : Type :=
| ValueError
| TypeError
| OverflowError
| AttributeError
| IndexError
| KeyError
| ConnectionError
| HTTPError
| JSONDecodeError
| IntegrityError
| ProgrammingError
| OperationalError.

Inductive result (A : Type) : Type :=
| Ok (a : A)
| Raise (e : exn).

Arguments Ok {A} a.
Arguments Raise {A} e.

Definition bind {A B : Type} (c : result A) (k : A -> result B) : result B :=
  match c with
  | Ok a => k a
  | Raise e => Raise e
  end.

Notation "x <- c ;; k" := (bind c (fun x => k))
  (at level 61, c at next level, right associativity).

(** [a < b] on rationals, as a boolean. *)
Definition Qltb (a b : Q) : bool := negb (Qle_bool b a).

(** Python's [sum] over rationals: a left fold that starts from [0]. *)
Definition py_sum (l : list Q) : Q := fold_left Qplus l 0%Q.

(** Python's truth value of a decoded JSON value. A NaN is true. *)
Definition truthy (v : json) : bool :=
  match v with
  | JNull => false
  | JBool b => b
  | JInt n => negb (n =? 0)
  | JFloat f => negb (f =? 0)%float
  | JStr s => negb (String.eqb s EmptyString)
  | JList l => match l with [] => false | _ :: _ => true end
  | JObj kvs => match kvs with [] => false | _ :: _ => true end
  end.

Fixpoint assoc (k : string) (kvs : list (string * json)) : option json :=
  match kvs with
  | [] => None
  | (k', v) :: rest => if String.eqb k k' then Some v else assoc k rest
  end.

(** [obj.get(key, default)]: only a [dict] has the method. *)
Definition dict_get (obj : json) (key : string) (default : json) : result json :=
  match obj with
  | JObj kvs => Ok (match assoc key kvs with Some v => v | None => default end)
  | _ => Raise AttributeError
  end.

(** [obj[i]] for a non-negative integer [i]. *)
Definition py_index (obj : json) (i : nat) : result json :=
  match obj with
  | JList l => match nth_error l i with Some v => Ok v | None => Raise IndexError end
  | JStr s => match String.get i s with
              | Some c => Ok (JStr (String c EmptyString))
              | None => Raise IndexError
              end
  | JObj _ => Raise KeyError
  | _ => Raise TypeError
  end.

Fixpoint chars (s : string) : list json :=
  match s with
  | EmptyString => []
  | String c rest => JStr (String c EmptyString) :: chars rest
  end.

(** The items a [for] loop sees when it iterates over a value. *)
Definition py_iter (obj : json) : result (list json) :=
  match obj with
  | JList l => Ok l
  | JStr s => Ok (chars s)
  | JObj kvs => Ok (map (fun kv => JStr (fst kv)) kvs)
  | _ => Raise TypeError
  end.

(** The integers SQLite can hold, and so the integers the [sqlite3] module
    binds: outside this range [execute] raises [OverflowError]. *)
Definition in_int64 (n : Z) : bool := (- 2 ^ 63 <=? n) && (n <? 2 ^ 63).

(** ** hip3.py: the market snapshot collector *)

Module Hip3.

(** One entry of [active_markets]: the dictionary built at lines 121-129. *)
Record market_row : Type := {
  dex : string;
  quote : string;
  market : json;
  markPx : float;
  dayNtlVlm : float;
  openInterestUSD : float;
  funding : float
}.

(** What [requests.post] hands back: the status line and the body, decoded
    when it is JSON ([None] when [response.json()] cannot decode it). *)
Record response : Type := {
  status_code : Z;
  json_body : option json
}.

(** The network, seen from the collector: the answer to the POST whose
    payload names [dex], or the exception [requests.post] raises. *)
Definition network : Type := string -> result response.

(** [Response.raise_for_status] of the requests library raises [HTTPError]
    for a client error (4xx) or a server error (5xx) and for nothing else. *)
Definition raise_for_status (r : response) : result unit :=
  if (400 <=? status_code r) && (status_code r <? 600)
  then Raise HTTPError else Ok tt.

Definition response_json (r : response) : result json :=
  match json_body r with
  | Some v => Ok v
  | None => Raise JSONDecodeError
  end.

(** [float(n)] for an int: the binary64 number nearest to [n], a tie going
    to the even neighbour; an infinity when [n] is beyond the range. *)
Definition float_of_int (n : Z) : float :=
  SF2Prim (binary_normalize prec emax n 0 false).

Section Collector.

(** Python's [float] applied to a [str] is a builtin of the interpreter:
    [None] stands for the [ValueError] it raises on a string that is not a
    number. It reads ["inf"], ["nan"] and a literal beyond the range of
    binary64 as an infinity or a NaN, and raises for none of them. *)
Variable float_of_str : string -> option float.

(** Python's [float(v)]. An int beyond the range of binary64 raises
    [OverflowError]. *)
Definition py_float (v : json) : result float :=
  match v with
  | JNull => Raise TypeError
  | JBool b => Ok (if b then 1%float else 0%float)
  | JInt n =>
      let f := float_of_int n in
      if is_infinity f then Raise OverflowError else Ok f
  | JFloat f => Ok f
  | JStr s => match float_of_str s with Some f => Ok f | None => Raise ValueError end
  | JList _ => Raise TypeError
  | JObj _ => Raise TypeError
  end.

(** [float(v) if v else 0] (lines 112-115). The [0] of the second branch is
    an int; in the product, the comparison, the sort key, the sums, the
    formats and the REAL columns that follow, it is the float [0.0]. *)
Definition float_or_zero (v : json) : result float :=
  if truthy v then py_float v else Ok 0%float.

(** The [try] block of lines 111-132 for one market: [Ok None] when the row
    is dropped, either by the volume test or because a [ValueError] or a
    [TypeError] was caught; any other exception leaves the block. *)
Definition parse_market (dex_name quote_currency : string) (coin_name : json)
    (mark_px day_volume open_interest_contracts funding_v : json)
    : result (option market_row) :=
  match
    (mark_px_float <- float_or_zero mark_px ;;
     oi_contracts_float <- float_or_zero open_interest_contracts ;;
     day_volume_float <- float_or_zero day_volume ;;
     funding_float <- float_or_zero funding_v ;;
     let oi_usd := (oi_contracts_float * mark_px_float)%float in
     Ok (if (0 <? day_volume_float)%float
         then Some {| dex := dex_name;
                      quote := quote_currency;
                      market := coin_name;
                      markPx := mark_px_float;
                      dayNtlVlm := day_volume_float;
                      openInterestUSD := oi_usd;
                      funding := funding_float |}
         else None))
  with
  | Ok r => Ok r
  | Raise ValueError => Ok None
  | Raise TypeError => Ok None
  | Raise e => Raise e
  end.

(** The body of the [for] loop (lines 103-132) for the [i]-th descriptor. *)
Definition loop_body (dex_name quote_currency : string) (asset_contexts : json)
    (i : nat) (m : json) : result (option market_row) :=
  coin_name <- dict_get m "name" (JStr "N/A") ;;
  market_data <- py_index asset_contexts i ;;
  mark_px <- dict_get market_data "markPx" (JStr "0") ;;
  day_volume <- dict_get market_data "dayNtlVlm" (JStr "0") ;;
  open_interest_contracts <- dict_get market_data "openInterest" (JStr "0") ;;
  funding_v <- dict_get market_data "funding" (JStr "0") ;;
  parse_market dex_name quote_currency coin_name
               mark_px day_volume open_interest_contracts funding_v.

Definition option_to_list {A : Type} (o : option A) : list A :=
  match o with Some a => [a] | None => [] end.

(** [for i, market in enumerate(universe)], from index [i] on. *)
Fixpoint markets_loop (dex_name quote_currency : string) (asset_contexts : json)
    (i : nat) (universe : list json) : result (list market_row) :=
  match universe with
  | [] => Ok []
  | m :: rest =>
      r <- loop_body dex_name quote_currency asset_contexts i m ;;
      rs <- markets_loop dex_name quote_currency asset_contexts (S i) rest ;;
      Ok (option_to_list r ++ rs)
  end.

(** Lines 93-134 applied to the decoded body. *)
Definition markets_of_body (dex_name quote_currency : string) (data : json)
    : result (list market_row) :=
  metadata <- py_index data 0 ;;
  asset_contexts <- py_index data 1 ;;
  universe <- dict_get metadata "universe" (JList []) ;;
  items <- py_iter universe ;;
  markets_loop dex_name quote_currency asset_contexts 0 items.

(** The outer [try] block (lines 90-134). *)
Definition fetch_markets (net : network) (dex_name quote_currency : string)
    : result (list market_row) :=
  resp <- net dex_name ;;
  _ <- raise_for_status resp ;;
  data <- response_json resp ;;
  markets_of_body dex_name quote_currency data.

(** [get_hip3_markets]: every exception ends in [return []] (lines 136-140). *)
Definition get_hip3_markets (net : network) (dex_name quote_currency : string)
    : list market_row :=
  match fetch_markets net dex_name quote_currency with
  | Ok active_markets => active_markets
  | Raise _ => []
  end.

End Collector.

(** *** [get_all_hip3_markets_combined] *)

(** [dex_configs] (lines 147-151): deployer name and quote currency. *)
Definition dex_configs : list (string * string) :=
  [("xyz", "USDC"); ("flx", "USDH"); ("vntl", "USDH")]%string.

(** The loop of lines 155-161: [all_markets.extend(markets)] per config. *)
Definition collect (float_of_str : string -> option float) (net : network)
    (configs : list (string * string)) : list market_row :=
  flat_map (fun config => get_hip3_markets float_of_str net (fst config) (snd config))
           configs.

(** The sort key of line 164: [lambda x: -x['dayNtlVlm']]. *)
Definition sort_key (m : market_row) : float := (- dayNtlVlm m)%float.

(** [list.sort(key=...)] is a stable ascending sort that compares keys with
    [<]: an item moves behind another only when its key is strictly larger.
    Insertion from the right computes that order when no key is a NaN, and
    no collected row has a NaN for its volume. *)
Fixpoint insert_by_key (x : market_row) (l : list market_row) : list market_row :=
  match l with
  | [] => [x]
  | y :: rest =>
      if (sort_key y <? sort_key x)%float
      then y :: insert_by_key x rest
      else x :: y :: rest
  end.

Fixpoint sort_by_key (l : list market_row) : list market_row :=
  match l with
  | [] => []
  | x :: rest => insert_by_key x (sort_by_key rest)
  end.

(** Python's [sum] over floats, as the interpreters up to 3.11 compute it:
    the additions are made from the left, starting from [0]. *)
Definition float_sum (l : list float) : float := fold_left PrimFloat.add l 0%float.

(** The format specification [<20] of line 174 applied to a market name:
    [None], a list and a dict have no such format, and the f-string raises
    [TypeError]; a string, a number and a boolean are printed. *)
Definition printable (coin_name : json) : bool :=
  match coin_name with
  | JNull => false
  | JList _ => false
  | JObj _ => false
  | _ => true
  end.

(** The loop of lines 173-174: one line per market, in order. *)
Fixpoint print_markets (l : list market_row) : result unit :=
  match l with
  | [] => Ok tt
  | m :: rest =>
      if printable (market m) then print_markets rest else Raise TypeError
  end.

(** One block of the "Summary by Dex" (lines 191-201). *)
Record dex_summary : Type := {
  summary_dex : string;
  summary_quote : string;
  summary_count : nat;
  summary_volume : float;
  summary_oi : float
}.

(** What a run prints after the ranked list: the overall totals (lines
    178-185) and the per-deployer blocks in configuration order. *)
Record report : Type := {
  all_markets : list market_row;
  total_count : nat;
  total_volume : float;
  total_oi : float;
  by_dex : list dex_summary
}.

(** [[m for m in all_markets if m['dex'] == dex_name]] (line 194). *)
Definition dex_markets (dex_name : string) (l : list market_row) : list market_row :=
  filter (fun m => String.eqb (dex m) dex_name) l.

Definition summarise (l : list market_row) (config : string * string) : dex_summary :=
  let ms := dex_markets (fst config) l in
  {| summary_dex := fst config;
     summary_quote := snd config;
     summary_count := List.length ms;
     summary_volume := float_sum (map dayNtlVlm ms);
     summary_oi := float_sum (map openInterestUSD ms) |}.

(** Lines 163-201: the sort, the ranked list, whose printing raises at a
    name that has no format, and then the totals. *)
Definition report_of (configs : list (string * string)) (collected : list market_row)
    : result report :=
  let sorted := sort_by_key collected in
  _ <- print_markets sorted ;;
  Ok {| all_markets := sorted;
        total_count := List.length sorted;
        total_volume := float_sum (map dayNtlVlm sorted);
        total_oi := float_sum (map openInterestUSD sorted);
        by_dex := map (summarise sorted) configs |}.

Definition run_report (float_of_str : string -> option float) (net : network)
    : result report :=
  report_of dex_configs (collect float_of_str net dex_configs).

(** The value the function returns (line 206), when it returns. *)
Definition get_all_hip3_markets_combined (float_of_str : string -> option float)
    (net : network) : result (list market_row) :=
  rep <- run_report float_of_str net ;;
  Ok (all_markets rep).

(** *** [insert_market_data] *)

(** A row of the table [market_data] (lines 15-25). The four REAL columns
    are nullable: a NaN stands for the NULL SQLite stores in its place. *)
Record market_data_row : Type := {
  id : Z;
  timestamp : Z;
  col_dex : string;
  quote_asset : string;
  col_market : string;
  mark_price : float;
  volume_24h : float;
  open_interest : float;
  funding_rate : float
}.

(** The table and the counter behind [AUTOINCREMENT]. *)
Record market_db : Type := {
  table : list market_data_row;
  last_id : Z
}.

(** What a REAL column holds for a bound float: SQLite keeps no sign for a
    zero, and stores NULL for a NaN. *)
Definition sql_real (f : float) : float :=
  if (f =? 0)%float then 0%float else f.

(** The decimal numeral of an integer. *)
Definition int_text (n : Z) : string := NilZero.string_of_int (Z.to_int n).

Section Store.

(** The text SQLite renders for a REAL value that goes into a column of
    TEXT affinity, for instance ["5.5"] and ["1.0e+30"]. *)
Variable real_text : float -> string.

(** The market name bound as the fourth parameter of the INSERT, as the
    column [market] is to store it: a number and a boolean are turned into
    text, [None] and a NaN are NULL ([None]). A list or a dict cannot be
    bound ([ProgrammingError]), nor can an int outside 64 bits
    ([OverflowError]). *)
Definition bind_market (coin_name : json) : result (option string) :=
  match coin_name with
  | JNull => Ok None
  | JBool b => Ok (Some (if b then "1" else "0")%string)
  | JInt n => if in_int64 n then Ok (Some (int_text n)) else Raise OverflowError
  | JFloat f => Ok (if is_nan f then None else Some (real_text f))
  | JStr s => Ok (Some s)
  | JList _ => Raise ProgrammingError
  | JObj _ => Raise ProgrammingError
  end.

(** One [cursor.execute] of the INSERT (lines 53-66) inside the open
    transaction: the parameters are bound, the next identifier is taken,
    which fails with "database or disk is full" ([OperationalError]) once
    the counter has reached the largest identifier, and the row is checked
    against [market TEXT NOT NULL] ([IntegrityError]). *)
Definition execute_insert (now : Z) (m : market_row) (work : market_db)
    : result market_db :=
  name <- bind_market (market m) ;;
  if last_id work <? 2 ^ 63 - 1
  then
    match name with
    | None => Raise IntegrityError
    | Some text =>
        let new_id := last_id work + 1 in
        Ok {| table := table work ++
                       [{| id := new_id;
                           timestamp := now;
                           col_dex := dex m;
                           quote_asset := quote m;
                           col_market := text;
                           mark_price := sql_real (markPx m);
                           volume_24h := sql_real (dayNtlVlm m);
                           open_interest := sql_real (openInterestUSD m);
                           funding_rate := sql_real (funding m) |}];
              last_id := new_id |}
    end
  else Raise OperationalError.

(** The [for] loop of lines 52-66, threading the uncommitted table and the
    cursor's [rowcount], which every successful INSERT sets to [1]. *)
Fixpoint insert_loop (now : Z) (markets : list market_row) (work : market_db)
    (rowcount : Z) : result (market_db * Z) :=
  match markets with
  | [] => Ok (work, rowcount)
  | m :: rest =>
      work' <- execute_insert now m work ;;
      insert_loop now rest work' 1
  end.

(** [insert_market_data]: [now] is the value of [datetime.now()] at line 50.
    The result pairs the committed database with the value returned; when an
    INSERT raises, the connection is dropped before [commit] and the
    database keeps its rows. A fresh cursor has [rowcount = -1]. *)
Definition insert_market_data (now : Z) (markets : list market_row) (db : market_db)
    : market_db * result Z :=
  match insert_loop now markets db (-1) with
  | Ok (work, rows_inserted) => (work, Ok rows_inserted)
  | Raise e => (db, Raise e)
  end.

End Store.

(** *** The script's entry point (lines 238-258) *)

(** [create_database] (lines 6-41) issues [CREATE TABLE IF NOT EXISTS] and
    [CREATE INDEX IF NOT EXISTS] on the file [sqlite3.connect] opens or
    creates: a database that has the table keeps its rows, and a new one
    ([None]) starts with the empty table. *)
Definition empty_db : market_db := {| table := []; last_id := 0 |}.

Definition create_database (file : option market_db) : market_db :=
  match file with
  | Some db => db
  | None => empty_db
  end.

(** What a run of the script ends with: the count it prints after the
    insert, the message that there is nothing to insert, or the exception
    that ends it. *)
Inductive run_outcome : Type :=
| Inserted (rows_inserted : Z)
| NothingToInsert
| Crashed (e : exn).

(** The [__main__] block: [now] is the clock read inside
    [insert_market_data]. The result pairs the database the run leaves with
    its outcome. Neither call is guarded: an exception of the report or of
    the insert ends the script. *)
Definition main (float_of_str : string -> option float) (real_text : float -> string)
    (net : network) (now : Z) (file : option market_db) : market_db * run_outcome :=
  let db := create_database file in
  match get_all_hip3_markets_combined float_of_str net with
  | Raise e => (db, Crashed e)
  | Ok [] => (db, NothingToInsert)
  | Ok (m :: ms) =>
      match insert_market_data real_text now (m :: ms) db with
      | (db', Ok rows_inserted) => (db', Inserted rows_inserted)
      | (db', Raise e) => (db', Crashed e)
      end
  end.

(** The script run once per element of [runs], each run with the answers of
    the network and the clock of its time, on the database the run before
    left. *)
Fixpoint main_runs (float_of_str : string -> option float)
    (real_text : float -> string) (runs : list (network * Z))
    (file : option market_db) : option market_db :=
  match runs with
  | [] => file
  | (net, now) :: rest =>
      main_runs float_of_str real_text rest
                (Some (fst (main float_of_str real_text net now file)))
  end.

(** *** Notions used to state the properties of the collector *)

(** The number is a NaN, read off its IEEE 754 form. *)
Definition sf_nan (f : spec_float) : bool :=
  match f with
  | S754_nan => true
  | _ => false
  end.

(** The exceptions the inner [try] of lines 111-132 catches. *)
Definition caught (e : exn) : bool :=
  match e with
  | ValueError => true
  | TypeError => true
  | _ => false
  end.

(** The number lines 106-115 obtain for [key] from a context. *)
Definition parsed (float_of_str : string -> option float) (market_data : json)
    (key : string) : result float :=
  v <- dict_get market_data key (JStr "0") ;;
  float_or_zero float_of_str v.

(** The four conversions of a context in the order of lines 112-115: the
    first that raises decides what becomes of the pair. *)
Definition conversions (float_of_str : string -> option float) (market_data : json)
    : result unit :=
  _ <- parsed float_of_str market_data "markPx" ;;
  _ <- parsed float_of_str market_data "openInterest" ;;
  _ <- parsed float_of_str market_data "dayNtlVlm" ;;
  _ <- parsed float_of_str market_data "funding" ;;
  Ok tt.

(** The row the filter builds from a name and the four parsed numbers. *)
Definition row_of (dex_name quote_currency : string) (coin_name : json)
    (px oi vol f : float) : market_row :=
  {| dex := dex_name;
     quote := quote_currency;
     market := coin_name;
     markPx := px;
     dayNtlVlm := vol;
     openInterestUSD := (oi * px)%float;
     funding := f |}.

(** The filter applied to one (descriptor, context) pair: the loop body run
    on a batch that holds this pair alone. *)
Definition filter_pair (float_of_str : string -> option float)
    (dex_name quote_currency : string) (m market_data : json)
    : result (option market_row) :=
  loop_body float_of_str dex_name quote_currency (JList [market_data]) 0 m.

(** The four keys the filter reads from a context. *)
Definition numeric_fields : list string :=
  ["markPx"; "dayNtlVlm"; "openInterest"; "funding"]%string.

(** [d[key] = v] on a decoded object. *)
Fixpoint set_field (key : string) (v : json) (kvs : list (string * json))
    : list (string * json) :=
  match kvs with
  | [] => [(key, v)]
  | (k', v') :: rest =>
      if String.eqb key k' then (key, v) :: rest
      else (k', v') :: set_field key v rest
  end.

Definition is_dict (v : json) : bool :=
  match v with
  | JObj _ => true
  | _ => false
  end.

(** *** Sample inputs *)

Definition m_btc : json := JObj [("name", JStr "BTC")]%string.

Definition ctx (px vol oi f : json) : json :=
  JObj [("markPx", px); ("dayNtlVlm", vol); ("openInterest", oi); ("funding", f)]%string.

(** A context whose volume is positive and whose funding rate is no number. *)
Definition ctx_bad_funding : json := ctx (JInt 2) (JInt 5) (JInt 3) (JStr "abc").

(** A context whose mark price is no number, and the same context with the
    mark price [0]. *)
Definition kvs_bad_price : list (string * json) :=
  [("markPx", JStr "abc"); ("dayNtlVlm", JInt 5);
   ("openInterest", JInt 3); ("funding", JInt 0)]%string.

Definition ctx_good : json := ctx (JInt 2) (JInt 7) (JInt 3) (JInt 1).

(** A context whose mark price is an int beyond the range of binary64. *)
Definition ctx_huge_price : json := ctx (JInt (10 ^ 400)) (JInt 5) (JInt 3) (JInt 0).

(** A parser that knows the string ["0"] and nothing else. *)
Definition float_of_zero_only (s : string) : option float :=
  if String.eqb s "0" then Some 0%float else None.

(** *** Notions used to state the properties of the report *)



(** The market of a deployer's body: a descriptor and its context. *)
Definition body_of (markets : list (json * json)) : json :=
  JList [JObj [("universe"%string, JList (map fst markets))]; JList (map snd markets)].


Definition answer (data : json) : result response :=
  Ok {| status_code := 200; json_body := Some data |}.



(** *** Notions used to state the isolation of a failing source *)







(** A body with one market. *)
Definition body_one : json := body_of [(m_btc, ctx_good)].


(** Every deployer answers with status 300 and a well-formed body. *)
Definition net_300 : network :=
  fun _ => Ok {| status_code := 300; json_body := Some body_one |}.



(** The first deployer reports a market whose mark price is an int beyond
    the range of binary64, between two markets that are in order. *)
Definition net_huge_price : network :=
  fun _ => answer (body_of [(m_btc, ctx_good); (m_btc, ctx_huge_price);
                            (m_btc, ctx_good)]).


(** *** Notions used to state the properties of the store *)

(** SQLite can bind the name of the row and store it in the column
    [market]. *)
Definition storable (m : market_row) : bool :=
  match market m with
  | JNull => false
  | JBool _ => true
  | JInt n => in_int64 n
  | JFloat f => negb (is_nan f)
  | JStr _ => true
  | JList _ => false
  | JObj _ => false
  end.

(** The text the column [market] holds for a name that can be stored. *)
Definition market_text (real_text : float -> string) (coin_name : json) : string :=
  match bind_market real_text coin_name with
  | Ok (Some text) => text
  | _ => EmptyString
  end.

(** The counter behind [AUTOINCREMENT] can hand out [n] more identifiers. *)
Definition has_room (db : market_db) (n : nat) : bool :=
  match n with
  | O => true
  | S _ => last_id db + Z.of_nat n <? 2 ^ 63
  end.

(** The table row for [m] under the identifier [n]. *)
Definition stored (real_text : float -> string) (now n : Z) (m : market_row)
    : market_data_row :=
  {| id := n;
     timestamp := now;
     col_dex := dex m;
     quote_asset := quote m;
     col_market := market_text real_text (market m);
     mark_price := sql_real (markPx m);
     volume_24h := sql_real (dayNtlVlm m);
     open_interest := sql_real (openInterestUSD m);
     funding_rate := sql_real (funding m) |}.

(** The table rows for a batch, numbered from [last + 1] on. *)
Fixpoint stored_batch (real_text : float -> string) (now last : Z)
    (markets : list market_row) : list market_data_row :=
  match markets with
  | [] => []
  | m :: rest =>
      stored real_text now (last + 1) m :: stored_batch real_text now (last + 1) rest
  end.

Definition two_rows : list market_row :=
  [row_of "xyz" "USDC" (JStr "BTC") 2 3 7 1;
   row_of "flx" "USDH" (JStr "ETH") 5 1 4 0]%string.

(** A rendering of REAL values as text that is used where no name is a
    float. *)
Definition no_real_text (f : float) : string := EmptyString.

(** *** Notions used to state the invariants of the store *)

(** The identifiers of the table are distinct and none exceeds the counter
    behind [AUTOINCREMENT]. *)
Definition ids_fresh (db : market_db) : Prop :=
  NoDup (map id (table db)) /\
  Forall (fun r => id r <= last_id db) (table db).

(** Every stored row has a positive 24h volume. *)
Definition volumes_positive (db : market_db) : Prop :=
  Forall (fun r => (0 <? volume_24h r)%float = true) (table db).

(** The descriptors the loop of [get_hip3_markets] walks for a decoded body,
    none when the body has no such list. *)
Definition descriptors (data : json) : list json :=
  match (metadata <- py_index data 0 ;;
         universe <- dict_get metadata "universe" (JList []) ;;
         py_iter universe)
  with
  | Ok items => items
  | Raise _ => []
  end.

(** Rows whose names SQLite cannot store: [None], and an int outside 64
    bits. *)
Definition nameless_row : market_row := row_of "xyz" "USDC" JNull 2 3 7 1.


(** The database file is absent, or its table satisfies both invariants. *)
Definition file_ok (file : option market_db) : Prop :=
  match file with
  | None => True
  | Some db => volumes_positive db /\ ids_fresh db
  end.

End Hip3.




(** ** web_query.py: the vault query service *)

Module WebQuery.

(** *** Formatting *)

Definition digit (n : Z) : string :=
  String (ascii_of_nat (48 + Z.to_nat (n mod 10))) EmptyString.

Definition decimal (n : Z) : string :=
  NilZero.string_of_uint (N.to_uint (Z.to_N n)).

(** The integer nearest to [a / b] for [0 <= a] and [0 < b], a tie going to
    the even neighbour. *)
Definition round_half_even (a b : Z) : Z :=
  let n := a / b in
  let r := a mod b in
  match 2 * r ?= b with
  | Lt => n
  | Gt => n + 1
  | Eq => if Z.even n then n else n + 1
  end.

(** The format specification [.2f]. Python prints the value of the float
    rounded to the nearest hundredth, a tie going to the even digit: the
    sign when the value is negative, the integer part, a point and two
    digits. *)
Definition format_2f (x : Q) : string :=
  let n := round_half_even (Z.abs (Qnum x) * 100) (Zpos (Qden x)) in
  ((if (Qnum x <? 0)%Z then "-" else "") ++
   decimal (n / 100) ++ "." ++ digit (n / 10) ++ digit n)%string.

(** [format_money] (lines 22-34). *)
Definition format_money (amount : option Q) : string :=
  match amount with
  | None => "N/A"%string
  | Some a =>
      if Qle_bool 1000000000 a then ("$" ++ format_2f (a / 1000000000) ++ "B")%string
      else if Qle_bool 1000000 a then ("$" ++ format_2f (a / 1000000) ++ "M")%string
      else if Qle_bool 1000 a then ("$" ++ format_2f (a / 1000) ++ "K")%string
      else ("$" ++ format_2f a)%string
  end.

(** [format_apy] (lines 37-41). *)
Definition format_apy (apy : option Q) : string :=
  match apy with
  | None => "N/A"%string
  | Some a => (format_2f a ++ "%")%string
  end.

(** *** The table [vault_snapshots] *)

(** A stored snapshot. The table is written by another program; its text
    columns [platform], [vault_name] and [vault_type] are taken as NOT NULL,
    the numeric columns are nullable. [timestamp] is the instant
    [datetime(timestamp)] denotes, in seconds since 1970-01-01 00:00:00, and
    [None] when the column is NULL or is no date. The table is taken to
    hold no date before the year 0000: SQLite renders such a date with a
    minus sign, and its comparisons of dates are comparisons of texts. *)
Record vault_snapshot : Type := {
  id : Z;
  timestamp : option Z;
  platform : string;
  vault_name : string;
  vault_type : string;
  total_deposits : option Q;
  deposit_amount : option Q;
  deposit_token : option string;
  apy_percentage : option Q
}.

(** The identity of a vault: the GROUP BY and JOIN columns. *)
Definition vault_key : Type := (string * string)%type.

Definition key_of (r : vault_snapshot) : vault_key := (platform r, vault_name r).

Definition key_eqb (a b : vault_key) : bool :=
  String.eqb (fst a) (fst b) && String.eqb (snd a) (snd b).

Definition key_eq_dec (a b : vault_key) : {a = b} + {a <> b}.
Proof. decide equality; apply string_dec. Defined.

(** *** The request of [/api/query] and [/api/stats] *)

Inductive order : Type := Asc | Desc.

(** The request body (lines 268-275), as the code reads it. A filter that
    the code skips (the field is missing, [None], the empty string, or, for
    [days_back], false in Python) is [None]; a filter that it applies holds
    the value of [int(...)] or [float(...)], or the string compared.
    [sort_order] is spliced into the statement in upper case: the two SQL
    keywords are the values modelled. *)
Record request : Type := {
  platforms : list string;
  q_vault_type : option string;
  sort_by : string;
  sort_order : order;
  min_apy : option Q;
  max_apy : option Q;
  days_back : option Z;
  min_deposits : option Q
}.

(** The first instant of SQLite's dates, noon of 24 November 4714 BC, in
    seconds before 1970-01-01 00:00:00. *)
Definition julian_epoch : Z := 210866760000.

(** [date_condition] (lines 280-282): empty unless [days_back] is true in
    Python, else [datetime(timestamp) >= datetime('now', '-N days')] with
    [N = int(days_back)]. [days] is [None] in the first case and [Some N] in
    the second; [now] is the clock, in seconds since 1970-01-01 00:00:00.
    A negative [N] yields the modifier ['--N days'], which SQLite rejects,
    and an [N] that leads before the first of SQLite's dates has no date:
    in both cases the right side is NULL and no row satisfies the
    comparison. *)
Definition date_condition (now : Z) (days : option Z) (r : vault_snapshot) : bool :=
  match days with
  | None => true
  | Some n =>
      if (n <? 0) || (now + julian_epoch <? n * 86400) then false
      else match timestamp r with
           | Some t => now - n * 86400 <=? t
           | None => false
           end
  end.

(** *** SQL aggregates *)

(** [MAX] over a group of non-NULL integers. *)
Definition sql_max (l : list Z) : option Z :=
  match l with
  | [] => None
  | x :: rest => Some (fold_left Z.max rest x)
  end.

Definition known {A : Type} (l : list (option A)) : list A :=
  flat_map (fun o => match o with Some a => [a] | None => [] end) l.

(** The arithmetic mean of a non-empty list. *)
Definition mean (l : list Q) : Q :=
  (py_sum l / inject_Z (Z.of_nat (List.length l)))%Q.

(** [AVG]: the mean of the non-NULL values, NULL when there is none. *)
Definition sql_avg (l : list (option Q)) : option Q :=
  match known l with
  | [] => None
  | v :: vs => Some (mean (v :: vs))
  end.

(** *** The statement of [query_vaults] (lines 285-326) *)

Section Statement.

(** The rows that satisfy [WHERE 1=1 {date_condition}]. *)
Variable in_window : vault_snapshot -> bool.
Variable db : list vault_snapshot.

Definition window_rows : list vault_snapshot := filter in_window db.

(** [GROUP BY platform, vault_name]: the distinct keys and their groups. *)
Definition group_keys : list vault_key := nodup key_eq_dec (map key_of window_rows).

Definition group (k : vault_key) : list vault_snapshot :=
  filter (fun r => key_eqb (key_of r) k) window_rows.

(** [SELECT MAX(id) ... GROUP BY platform, vault_name] (lines 298-301). *)
Definition max_ids : list Z :=
  flat_map (fun k => match sql_max (map id (group k)) with
                     | Some m => [m]
                     | None => []
                     end) group_keys.

(** A row of the CTE [latest_snapshots] (lines 286-303). *)
Record ls_row : Type := {
  ls_platform : string;
  ls_vault_name : string;
  ls_vault_type : string;
  ls_total_deposits : option Q;
  ls_deposit_amount : option Q;
  ls_deposit_token : option string;
  ls_latest_apy : option Q;
  ls_timestamp : option Z
}.

Definition ls_of (r : vault_snapshot) : ls_row :=
  {| ls_platform := platform r;
     ls_vault_name := vault_name r;
     ls_vault_type := vault_type r;
     ls_total_deposits := total_deposits r;
     ls_deposit_amount := deposit_amount r;
     ls_deposit_token := deposit_token r;
     ls_latest_apy := apy_percentage r;
     ls_timestamp := timestamp r |}.

(** The stored rows selected by [WHERE id IN (...)] (line 297). *)
Definition latest_rows : list vault_snapshot :=
  filter (fun r => existsb (Z.eqb (id r)) max_ids) db.

Definition latest_snapshots : list ls_row := map ls_of latest_rows.

(** A row of the CTE [avg_apy] (lines 304-312). *)
Record aa_row : Type := {
  aa_platform : string;
  aa_vault_name : string;
  aa_average_apy : option Q
}.

Definition avg_apy : list aa_row :=
  map (fun k => {| aa_platform := fst k;
                   aa_vault_name := snd k;
                   aa_average_apy := sql_avg (map apy_percentage (group k)) |})
      group_keys.

(** A row of the main SELECT (lines 313-325). *)
Record result_row : Type := {
  r_platform : string;
  r_vault_name : string;
  r_vault_type : string;
  r_total_deposits : option Q;
  r_deposit_amount : option Q;
  r_deposit_token : option string;
  r_latest_apy : option Q;
  r_average_apy : option Q;
  r_timestamp : option Z
}.

Definition joined (ls : ls_row) (avg : option Q) : result_row :=
  {| r_platform := ls_platform ls;
     r_vault_name := ls_vault_name ls;
     r_vault_type := ls_vault_type ls;
     r_total_deposits := ls_total_deposits ls;
     r_deposit_amount := ls_deposit_amount ls;
     r_deposit_token := ls_deposit_token ls;
     r_latest_apy := ls_latest_apy ls;
     r_average_apy := avg;
     r_timestamp := ls_timestamp ls |}.

(** [latest_snapshots ls LEFT JOIN avg_apy aa ON ls.platform = aa.platform
    AND ls.vault_name = aa.vault_name]: one row per match, and one row with
    NULL for [aa]'s columns when nothing matches. *)
Definition left_join : list result_row :=
  flat_map
    (fun ls =>
       match filter (fun aa => String.eqb (ls_platform ls) (aa_platform aa)
                               && String.eqb (ls_vault_name ls) (aa_vault_name aa))
                    avg_apy
       with
       | [] => [joined ls None]
       | matches => map (fun aa => joined ls (aa_average_apy aa)) matches
       end)
    latest_snapshots.

(** The joined row of a selected snapshot: its columns and the average of
    the group of its vault, which is NULL when the group is empty. *)
Definition join_row (r : vault_snapshot) : result_row :=
  joined (ls_of r) (sql_avg (map apy_percentage (group (key_of r)))).

End Statement.

(** *** Filters and ordering (lines 328-363) *)

Definition opt_test {A : Type} (p : A -> bool) (o : option A) : bool :=
  match o with
  | Some a => p a
  | None => false
  end.

(** The conjunction appended to [WHERE 1=1]. A comparison with a NULL column
    is not true, so the row is left out. *)
Definition conditions (q : request) (r : result_row) : bool :=
  (match platforms q with
   | [] => true
   | ps => existsb (String.eqb (r_platform r)) ps
   end)
  && (match q_vault_type q with
      | None => true
      | Some t => if String.eqb t EmptyString then true else String.eqb (r_vault_type r) t
      end)
  && (match min_apy q with
      | None => true
      | Some m => opt_test (fun a => Qle_bool m a) (r_latest_apy r)
      end)
  && (match max_apy q with
      | None => true
      | Some m => opt_test (fun a => Qle_bool a m) (r_latest_apy r)
      end)
  && (match min_deposits q with
      | None => true
      | Some m => opt_test (fun a => Qle_bool m a) (r_deposit_amount r)
      end).

(** SQLite's order on a nullable number: NULL sorts before every value. *)
Definition null_first_leb (a b : option Q) : bool :=
  match a, b with
  | None, _ => true
  | Some _, None => false
  | Some x, Some y => Qle_bool x y
  end.

(** [ORDER BY key ASC] and [ORDER BY key DESC]. *)
Definition key_leb (o : order) (key : result_row -> option Q) (a b : result_row) : bool :=
  match o with
  | Asc => null_first_leb (key a) (key b)
  | Desc => null_first_leb (key b) (key a)
  end.

Definition name_leb (a b : result_row) : bool :=
  String.leb (r_vault_name a) (r_vault_name b).

Fixpoint insert_sorted {A : Type} (leb : A -> A -> bool) (x : A) (l : list A) : list A :=
  match l with
  | [] => [x]
  | y :: rest => if leb x y then x :: y :: rest else y :: insert_sorted leb x rest
  end.

(** The rows in the order of [leb]. SQLite leaves the order of rows with
    equal keys open; this sort keeps them in their order of arrival. *)
Definition order_by {A : Type} (leb : A -> A -> bool) (l : list A) : list A :=
  fold_right (insert_sorted leb) [] l.

(** The ORDER BY clause chosen by [sort_by] (lines 356-363); the last branch
    ignores [sort_order]. *)
Definition row_leb (q : request) : result_row -> result_row -> bool :=
  if String.eqb (sort_by q) "apy" then key_leb (sort_order q) r_latest_apy
  else if String.eqb (sort_by q) "avg_apy" then key_leb (sort_order q) r_average_apy
  else if String.eqb (sort_by q) "deposits" then key_leb (sort_order q) r_deposit_amount
  else name_leb.

(** [cursor.fetchall()] for the statement of [query_vaults]. *)
Definition query_rows (q : request) (now : Z) (db : list vault_snapshot)
    : list result_row :=
  order_by (row_leb q)
           (filter (conditions q) (left_join (date_condition now (days_back q)) db)).

(** An entry of the list [vaults] (lines 372-385). *)
Record vault : Type := {
  v_platform : string;
  v_vault_name : string;
  v_vault_type : string;
  v_total_deposits : option Q;
  v_deposit_amount : option Q;
  v_deposit_amount_formatted : string;
  v_deposit_token : option string;
  v_latest_apy : option Q;
  v_latest_apy_formatted : string;
  v_average_apy : option Q;
  v_average_apy_formatted : string;
  v_timestamp : option Z
}.

Definition vault_of_row (r : result_row) : vault :=
  {| v_platform := r_platform r;
     v_vault_name := r_vault_name r;
     v_vault_type := r_vault_type r;
     v_total_deposits := r_total_deposits r;
     v_deposit_amount := r_deposit_amount r;
     v_deposit_amount_formatted := format_money (r_deposit_amount r);
     v_deposit_token := r_deposit_token r;
     v_latest_apy := r_latest_apy r;
     v_latest_apy_formatted := format_apy (r_latest_apy r);
     v_average_apy := r_average_apy r;
     v_average_apy_formatted := format_apy (r_average_apy r);
     v_timestamp := r_timestamp r |}.

(** [query_vaults]: the list under ['vaults'] of the JSON answer; ['count']
    is its length. *)
Definition query_vaults (q : request) (now : Z) (db : list vault_snapshot)
    : list vault :=
  map vault_of_row (query_rows q now db).

Definition v_key (v : vault) : vault_key := (v_platform v, v_vault_name v).

(** The value a returned vault is sorted on, as [sort_by] selects it: a
    nullable number, or the vault's name. *)
Inductive sort_value : Type :=
| NullKey
| NumKey (x : Q)
| TextKey (s : string).

Definition num_key (o : option Q) : sort_value :=
  match o with
  | Some x => NumKey x
  | None => NullKey
  end.

Definition v_sort_value (q : request) (v : vault) : sort_value :=
  if String.eqb (sort_by q) "apy" then num_key (v_latest_apy v)
  else if String.eqb (sort_by q) "avg_apy" then num_key (v_average_apy v)
  else if String.eqb (sort_by q) "deposits" then num_key (v_deposit_amount v)
  else TextKey (v_vault_name v).

Definition is_null (k : sort_value) : bool :=
  match k with
  | NullKey => true
  | _ => false
  end.

(** *** [get_stats] (lines 396-531) *)

(** The statement of [get_stats] selects five of the columns above, applies
    the platform, type and deposit filters and does not sort. *)
Definition stats_rows (q : request) (now : Z) (db : list vault_snapshot)
    : list result_row :=
  filter (conditions {| platforms := platforms q;
                        q_vault_type := q_vault_type q;
                        sort_by := sort_by q;
                        sort_order := sort_order q;
                        min_apy := None;
                        max_apy := None;
                        days_back := days_back q;
                        min_deposits := min_deposits q |})
         (left_join (date_condition now (days_back q)) db).

(** [[row[c] for row in rows if row[c] is not None]]. *)
Definition not_none (c : result_row -> option Q) (rows : list result_row) : list Q :=
  known (map c rows).

(** [[r[c] for r in rows if r[c]]]: the truth value of a number is false
    for [None] and for zero. *)
Definition if_true (c : result_row -> option Q) (rows : list result_row) : list Q :=
  filter (fun x => negb (Qeq_bool x 0)) (known (map c rows)).

(** [sum(l) / len(l) if l else 0]. *)
Definition mean_or_zero (l : list Q) : Q :=
  match l with
  | [] => 0%Q
  | _ :: _ => mean l
  end.

(** [sum(l) if l else 0]. *)
Definition sum_or_zero (l : list Q) : Q :=
  match l with
  | [] => 0%Q
  | _ :: _ => py_sum l
  end.

(** [max(l) if l else 0] and [min(l) if l else 0]. *)
Definition max_or_zero (l : list Q) : Q :=
  match l with
  | [] => 0%Q
  | x :: rest => fold_left (fun m y => if Qltb m y then y else m) rest x
  end.

Definition min_or_zero (l : list Q) : Q :=
  match l with
  | [] => 0%Q
  | x :: rest => fold_left (fun m y => if Qltb y m then y else m) rest x
  end.

(** The dictionary [stats] (lines 477-491). *)
Record overall_stats : Type := {
  total_vaults : nat;
  avg_latest_apy : Q;
  avg_period_apy : Q;
  stat_max_apy : Q;
  stat_min_apy : Q;
  total_tvl : Q;
  avg_tvl : Q;
  total_tvl_formatted : string;
  avg_tvl_formatted : string
}.

Definition overall (results : list result_row) : overall_stats :=
  let valid_latest_apys := not_none r_latest_apy results in
  let valid_avg_apys := not_none r_average_apy results in
  let valid_deposits := not_none r_deposit_amount results in
  {| total_vaults := List.length results;
     avg_latest_apy := mean_or_zero valid_latest_apys;
     avg_period_apy := mean_or_zero valid_avg_apys;
     stat_max_apy := max_or_zero valid_latest_apys;
     stat_min_apy := min_or_zero valid_latest_apys;
     total_tvl := sum_or_zero valid_deposits;
     avg_tvl := mean_or_zero valid_deposits;
     total_tvl_formatted := format_money (Some (sum_or_zero valid_deposits));
     avg_tvl_formatted := format_money (Some (mean_or_zero valid_deposits)) |}.

(** An entry of [platform_stats] or [type_stats] (lines 501-507, 517-523). *)
Record group_stats : Type := {
  g_count : nat;
  g_avg_latest_apy : Q;
  g_avg_period_apy : Q;
  g_total_tvl : Q;
  g_total_tvl_formatted : string
}.

Definition stats_of_group (members : list result_row) : group_stats :=
  let latest_apys := if_true r_latest_apy members in
  let avg_apys := if_true r_average_apy members in
  let deposits := if_true r_deposit_amount members in
  {| g_count := List.length members;
     g_avg_latest_apy := mean_or_zero latest_apys;
     g_avg_period_apy := mean_or_zero avg_apys;
     g_total_tvl := sum_or_zero deposits;
     g_total_tvl_formatted := format_money (Some (sum_or_zero deposits)) |}.

(** The breakdown by a text column: one entry per distinct value. The
    dictionary is keyed by that value; the order of its entries carries no
    meaning. *)
Definition breakdown (col : result_row -> string) (results : list result_row)
    : list (string * group_stats) :=
  map (fun g => (g, stats_of_group (filter (fun r => String.eqb (col r) g) results)))
      (nodup string_dec (map col results)).

Record stats_answer : Type := {
  st_overall : overall_stats;
  by_platform : list (string * group_stats);
  by_type : list (string * group_stats)
}.

Definition compute_stats (results : list result_row) : stats_answer :=
  {| st_overall := overall results;
     by_platform := breakdown r_platform results;
     by_type := breakdown r_vault_type results |}.

Definition get_stats (q : request) (now : Z) (db : list vault_snapshot) : stats_answer :=
  compute_stats (stats_rows q now db).

Fixpoint lookup {A : Type} (k : string) (l : list (string * A)) : option A :=
  match l with
  | [] => None
  | (k', a) :: rest => if String.eqb k k' then Some a else lookup k rest
  end.

(** *** Notions used to state the properties of the formatter *)

Definition is_digit (c : ascii) : bool :=
  (48 <=? nat_of_ascii c)%nat && (nat_of_ascii c <=? 57)%nat.

(** The string ends with a point and two digits. *)
Definition two_decimals (s : string) : Prop :=
  exists whole d1 d2,
    s = (whole ++ "." ++ String d1 (String d2 EmptyString))%string /\
    is_digit d1 = true /\ is_digit d2 = true.

(** *** Notions used to state the properties of the query *)


(** The APY samples of the vault [k] in the window [w]: the non-NULL values
    of [apy_percentage] over the stored rows of the vault inside the window. *)
Definition apy_samples (w : vault_snapshot -> bool) (db : list vault_snapshot)
    (k : vault_key) : list Q :=
  known (map apy_percentage (filter (fun r => key_eqb (key_of r) k) (filter w db))).


(** *** Sample data *)

Definition snap (i t : Z) (p n : string) (apy dep : option Q) : vault_snapshot :=
  {| id := i;
     timestamp := Some t;
     platform := p;
     vault_name := n;
     vault_type := "lending";
     total_deposits := None;
     deposit_amount := dep;
     deposit_token := Some "USDC"%string;
     apy_percentage := apy |}.

(** Two vaults: one with two snapshots, one whose APY is unknown. *)
Definition sample_db : list vault_snapshot :=
  [snap 1 100 "aave" "usdc" (Some 4%Q) (Some 1000%Q);
   snap 2 200 "aave" "usdc" (Some 6%Q) (Some 1500%Q);
   snap 3 200 "morpho" "weth" None (Some 20%Q)]%string.

Definition sample_request (key : string) (o : order) : request :=
  {| platforms := [];
     q_vault_type := None;
     sort_by := key;
     sort_order := o;
     min_apy := None;
     max_apy := None;
     days_back := None;
     min_deposits := None |}.

(** The NULL keys of a list of sort values stand behind all others. *)
Fixpoint nulls_last (keys : list sort_value) : bool :=
  match keys with
  | [] => true
  | k :: rest => if is_null k then forallb is_null rest else nulls_last rest
  end.

(** The NULL keys of a list of sort values stand before all others. *)
Fixpoint nulls_first (keys : list sort_value) : bool :=
  match keys with
  | [] => true
  | k :: rest =>
      if is_null k then nulls_first rest
      else forallb (fun k' => negb (is_null k')) rest
  end.

(** The request sorts by name: [sort_by] is none of the three numeric keys. *)
Definition by_name (q : request) : bool :=
  negb (String.eqb (sort_by q) "apy")
  && negb (String.eqb (sort_by q) "avg_apy")
  && negb (String.eqb (sort_by q) "deposits").

(** The entry of [by_platform] for [p]. *)
Definition platform_stats (a : stats_answer) (p : string) : group_stats :=
  match lookup p (by_platform a) with
  | Some g => g
  | None => stats_of_group []
  end.

(** Two vaults of one platform; the latest APY of the first is zero. *)
Definition zero_apy_db : list vault_snapshot :=
  [snap 1 100 "aave" "usdc" (Some 0%Q) (Some 1000%Q);
   snap 2 100 "aave" "dai" (Some 10%Q) (Some 500%Q)]%string.

(** *** Notions used to state further properties of [query_vaults] *)

(** The request [q] with another sort key and direction. *)
Definition with_sort (key : string) (o : order) (q : request) : request :=
  {| platforms := platforms q;
     q_vault_type := q_vault_type q;
     sort_by := key;
     sort_order := o;
     min_apy := min_apy q;
     max_apy := max_apy q;
     days_back := days_back q;
     min_deposits := min_deposits q |}.

(** A sort value may stand before another in the answer: numbers in the
    requested direction with NULL as the least value, names in ascending
    order whatever the direction. *)
Definition in_order (o : order) (a b : sort_value) : bool :=
  match a, b with
  | TextKey s, TextKey t => String.leb s t
  | TextKey _, _ => false
  | _, TextKey _ => false
  | _, _ =>
      let num k := match k with NumKey x => Some x | _ => None end in
      match o with
      | Asc => null_first_leb (num a) (num b)
      | Desc => null_first_leb (num b) (num a)
      end
  end.

(** A request with every filter set. *)
Definition filtered_request : request :=
  {| platforms := ["aave"; "morpho"]%string;
     q_vault_type := Some "lending"%string;
     sort_by := "deposits";
     sort_order := Desc;
     min_apy := Some 5%Q;
     max_apy := Some 10%Q;
     days_back := Some 7;
     min_deposits := Some 1000%Q |}.

(** *** The endpoints that read the table directly *)

(** [platform IN (...)], appended when the list of the request is not empty
    (lines 76-79 and 128-131). *)
Definition platform_condition (ps : list string) (r : vault_snapshot) : bool :=
  match ps with
  | [] => true
  | _ :: _ => existsb (String.eqb (platform r)) ps
  end.

(** [column = ?], appended when the value of the request is true in Python
    and is not the empty string (lines 81-83 and 133-139); [None] stands
    for a value that is missing or [None]. A NULL column satisfies no
    comparison. *)
Definition text_condition (wanted : option string) (column : option string) : bool :=
  match wanted with
  | None => true
  | Some t =>
      if String.eqb t EmptyString then true else opt_test (String.eqb t) column
  end.

(** **** [get_available_vaults] (lines 58-102) *)

(** The request body; an absent body is the body without filters. *)
Record vaults_request : Type := {
  a_platforms : list string;
  a_vault_type : option string
}.

Definition vault_condition (req : vaults_request) (r : vault_snapshot) : bool :=
  platform_condition (a_platforms req) r
  && text_condition (a_vault_type req) (Some (vault_type r)).

(** [ORDER BY platform, vault_name]. *)
Definition pair_leb (a b : vault_key) : bool :=
  if String.eqb (fst a) (fst b) then String.leb (snd a) (snd b)
  else String.leb (fst a) (fst b).

Record available_vault : Type := {
  av_platform : string;
  av_vault_name : string;
  display_name : string
}.

Definition available_of (k : vault_key) : available_vault :=
  {| av_platform := fst k;
     av_vault_name := snd k;
     display_name := (fst k ++ " - " ++ snd k)%string |}.

Definition get_available_vaults (req : vaults_request) (db : list vault_snapshot)
    : list available_vault :=
  map available_of
      (order_by pair_leb
                (nodup key_eq_dec (map key_of (filter (vault_condition req) db)))).

(** **** [get_available_tokens] (lines 179-199) and [index] (lines 44-55) *)

Definition get_available_tokens (db : list vault_snapshot) : list string :=
  order_by String.leb (nodup string_dec (known (map deposit_token db))).

(** The two lists [index] hands to the template. *)
Definition index (db : list vault_snapshot) : list string * list string :=
  (order_by String.leb (nodup string_dec (map platform db)),
   order_by String.leb (nodup string_dec (map vault_type db))).

(** **** [days_back] with a default *)

(** The field [days_back] as [get_cumulative_deposits] and
    [get_vault_history] read it ([data.get('days_back', 30)], lines 113 and
    209, tested at lines 141 and 228): the key is missing; the value is
    false in Python or the empty string; or the value is true and
    [int(days_back)] is [n]. *)
Inductive days_field : Type :=
| Absent
| Skipped
| Days (n : Z).

Definition days_of (d : days_field) : option Z :=
  match d with
  | Absent => Some 30
  | Skipped => None
  | Days n => Some n
  end.

(** [not value] for a text field of the request: missing, [None] and the
    empty string are false. *)
Definition given (o : option string) : bool :=
  match o with
  | Some t => negb (String.eqb t EmptyString)
  | None => false
  end.

(** What a view returns: the body with status 200, or an error message with
    status 400; an exception that leaves the view is answered with status
    500. *)
Inductive reply (A : Type) : Type :=
| Json200 (body : A)
| Json400 (error : string)
| Error500 (e : exn).

Arguments Json200 {A} body.
Arguments Json400 {A} error.
Arguments Error500 {A} e.

(** [params.append(int(days_back))] (lines 143 and 230): the number of days
    is a parameter of the statement, and [execute] raises [OverflowError]
    for an int outside 64 bits. *)
Definition days_bound (d : days_field) : bool :=
  match d with
  | Days n => in_int64 n
  | _ => true
  end.

Section Stamps.

(** The stored values of the column [timestamp]. A [vault_snapshot] holds
    the instant such a value denotes; the two statements below return the
    stored value itself, group by it and sort on it. [stamp r] is the stored
    value of the row [r], values SQLite does not tell apart being one value,
    and [stamp_leb] is the order SQLite sorts them in. *)
Variable stamp_value : Type.
Variable stamp : vault_snapshot -> stamp_value.
Variable stamp_eq_dec : forall a b : stamp_value, {a = b} + {a <> b}.
Variable stamp_leb : stamp_value -> stamp_value -> bool.

(** **** [get_vault_history] (lines 202-260) *)

Record history_request : Type := {
  h_platform : option string;
  h_vault_name : option string;
  h_days_back : days_field
}.

Record history_point : Type := {
  hp_timestamp : stamp_value;
  hp_apy : option Q;
  hp_deposits : option Q
}.

Record vault_history : Type := {
  vh_platform : string;
  vh_vault_name : string;
  vh_history : list history_point;
  vh_avg_apy : Q
}.

Definition history_point_of (r : vault_snapshot) : history_point :=
  {| hp_timestamp := stamp r;
     hp_apy := apy_percentage r;
     hp_deposits := deposit_amount r |}.

(** [cursor.fetchall()] for the statement of lines 217-232. *)
Definition history_rows (p n : string) (days : option Z) (now : Z)
    (db : list vault_snapshot) : list vault_snapshot :=
  order_by (fun a b => stamp_leb (stamp a) (stamp b))
           (filter (fun r => String.eqb (platform r) p
                             && String.eqb (vault_name r) n
                             && date_condition now days r)
                   db).

Definition get_vault_history (req : history_request) (now : Z)
    (db : list vault_snapshot) : reply vault_history :=
  if negb (given (h_platform req)) || negb (given (h_vault_name req))
  then Json400 "Platform and vault_name required"
  else
    match h_platform req, h_vault_name req with
    | Some p, Some n =>
        if days_bound (h_days_back req)
        then
          let results := history_rows p n (days_of (h_days_back req)) now db in
          let valid_apys := known (map apy_percentage results) in
          Json200 {| vh_platform := p;
                     vh_vault_name := n;
                     vh_history := map history_point_of results;
                     vh_avg_apy := mean_or_zero valid_apys |}
        else Error500 OverflowError
    | _, _ => Json400 "Platform and vault_name required"
    end.

(** **** [get_cumulative_deposits] (lines 105-176) *)

Record deposits_request : Type := {
  d_platforms : list string;
  d_vault_type : option string;
  d_deposit_token : option string;
  d_days_back : days_field
}.

Definition deposit_condition (req : deposits_request) (now : Z) (r : vault_snapshot)
    : bool :=
  platform_condition (d_platforms req) r
  && text_condition (d_vault_type req) (Some (vault_type r))
  && text_condition (d_deposit_token req) (deposit_token r)
  && date_condition now (days_of (d_days_back req)) r.

(** [SUM]: the sum of the non-NULL values, NULL when there is none. *)
Definition sql_sum (l : list (option Q)) : option Q :=
  match known l with
  | [] => None
  | v :: vs => Some (py_sum (v :: vs))
  end.

Record deposit_point : Type := {
  dp_timestamp : stamp_value;
  dp_total_deposits : option Q
}.

Definition same_stamp (s : stamp_value) (r : vault_snapshot) : bool :=
  if stamp_eq_dec (stamp r) s then true else false.

(** [GROUP BY timestamp] over the rows the WHERE clause keeps. *)
Definition deposit_groups (rows : list vault_snapshot) : list deposit_point :=
  map (fun s => {| dp_timestamp := s;
                   dp_total_deposits :=
                     sql_sum (map deposit_amount (filter (same_stamp s) rows)) |})
      (nodup stamp_eq_dec (map stamp rows)).

(** [cursor.fetchall()] for the statement of lines 118-145. *)
Definition deposit_results (req : deposits_request) (now : Z)
    (db : list vault_snapshot) : list deposit_point :=
  order_by (fun a b => stamp_leb (dp_timestamp a) (dp_timestamp b))
           (deposit_groups (filter (deposit_condition req now) db)).

Record cumulative_deposits : Type := {
  cd_history : list deposit_point;
  avg_deposits : Q;
  cd_min_deposits : Q;
  cd_max_deposits : Q;
  current_deposits : Q
}.

Definition get_cumulative_deposits (req : deposits_request) (now : Z)
    (db : list vault_snapshot) : reply cumulative_deposits :=
  if days_bound (d_days_back req)
  then
    let results := deposit_results req now db in
    let deposit_values := known (map dp_total_deposits results) in
    Json200 {| cd_history := results;
               avg_deposits := mean_or_zero deposit_values;
               cd_min_deposits := min_or_zero deposit_values;
               cd_max_deposits := max_or_zero deposit_values;
               current_deposits := List.last deposit_values 0%Q |}
  else Error500 OverflowError.

End Stamps.

Arguments history_point_of {stamp_value} stamp r.
Arguments history_rows {stamp_value} stamp stamp_leb p n days now db.
Arguments get_vault_history {stamp_value} stamp stamp_leb req now db.
Arguments same_stamp {stamp_value} stamp stamp_eq_dec s r.
Arguments deposit_groups {stamp_value} stamp stamp_eq_dec rows.
Arguments deposit_results {stamp_value} stamp stamp_eq_dec stamp_leb req now db.
Arguments get_cumulative_deposits {stamp_value} stamp stamp_eq_dec stamp_leb req now db.
Arguments hp_timestamp {stamp_value} _.
Arguments hp_apy {stamp_value} _.
Arguments hp_deposits {stamp_value} _.
Arguments vh_platform {stamp_value} _.
Arguments vh_vault_name {stamp_value} _.
Arguments vh_history {stamp_value} _.
Arguments vh_avg_apy {stamp_value} _.
Arguments dp_timestamp {stamp_value} _.
Arguments dp_total_deposits {stamp_value} _.
Arguments cd_history {stamp_value} _.
Arguments avg_deposits {stamp_value} _.
Arguments cd_min_deposits {stamp_value} _.
Arguments cd_max_deposits {stamp_value} _.
Arguments current_deposits {stamp_value} _.

(** *** Notions used to state the properties of these endpoints *)

(** The value shown for a figure that may be NULL, [0] standing for NULL. *)
Definition or_zero (o : option Q) : Q :=
  match o with
  | Some x => x
  | None => 0%Q
  end.

(** A table whose stored timestamps order as the instants they denote,
    NULL first. *)
Definition instant_leb (a b : option Z) : bool :=
  match a, b with
  | None, _ => true
  | Some _, None => false
  | Some x, Some y => x <=? y
  end.

Definition instant_eq_dec (a b : option Z) : {a = b} + {a <> b}.
Proof. decide equality; apply Z.eq_dec. Defined.

(** A request of [get_cumulative_deposits] without filters. *)
Definition all_deposits : deposits_request :=
  {| d_platforms := [];
     d_vault_type := None;
     d_deposit_token := None;
     d_days_back := Skipped |}.

(** The request of [get_available_vaults] with the platform and type
    filters of a request of [query_vaults]. *)
Definition vaults_request_of (q : request) : vaults_request :=
  {| a_platforms := platforms q; a_vault_type := q_vault_type q |}.

End WebQuery.

(** * hip3.py: reading the table back *)

Module Hip3View.

Import Hip3.

(** A row as the SELECT of [view_latest_data] returns it (lines 216-217):
    the columns of the table without [id]. *)
Record latest_record : Type := {
  lr_timestamp : Z;
  lr_dex : string;
  lr_quote_asset : string;
  lr_market : string;
  lr_mark_price : float;
  lr_volume_24h : float;
  lr_open_interest : float;
  lr_funding_rate : float
}.

Definition selected (r : market_data_row) : latest_record :=
  {| lr_timestamp := timestamp r;
     lr_dex := col_dex r;
     lr_quote_asset := quote_asset r;
     lr_market := col_market r;
     lr_mark_price := mark_price r;
     lr_volume_24h := volume_24h r;
     lr_open_interest := open_interest r;
     lr_funding_rate := funding_rate r |}.

(** [ORDER BY x DESC] on a REAL column: [a] may stand before [b]. A NULL,
    which is a NaN here, is the least value and stands last. *)
Definition real_desc_leb (a b : float) : bool :=
  if is_nan b then true
  else if is_nan a then false
  else (b <=? a)%float.

(** [ORDER BY timestamp DESC, volume_24h DESC]. *)
Definition latest_leb (a b : market_data_row) : bool :=
  if timestamp a =? timestamp b then real_desc_leb (volume_24h a) (volume_24h b)
  else timestamp b <? timestamp a.

(** [LIMIT ?]: a negative limit is no limit. *)
Definition sql_limit {A : Type} (limit : Z) (rows : list A) : list A :=
  if limit <? 0 then rows else firstn (Z.to_nat limit) rows.

(** The table rows behind [cursor.fetchall()] (line 222). *)
Definition latest_rows (limit : Z) (db : market_db) : list market_data_row :=
  sql_limit limit (WebQuery.order_by latest_leb (table db)).

(** The float formats of line 234 applied to a row: a NULL column comes
    back as [None], which has no such format, and the f-string raises
    [TypeError]. *)
Definition record_printable (r : latest_record) : bool :=
  negb (is_nan (lr_mark_price r)) && negb (is_nan (lr_volume_24h r))
  && negb (is_nan (lr_open_interest r)) && negb (is_nan (lr_funding_rate r)).

(** What [view_latest_data] prints: the table of the fetched rows, or the
    line that the database has no data when no row was fetched. *)
Inductive view_output : Type :=
| Records (rows : list latest_record)
| NoData.

(** [view_latest_data] for an int [limit]: a limit outside 64 bits cannot be
    bound, and [execute] raises [OverflowError]. *)
Definition view_latest_data (limit : Z) (db : market_db) : result view_output :=
  if in_int64 limit
  then
    match map selected (latest_rows limit db) with
    | [] => Ok NoData
    | row :: rows =>
        if forallb record_printable (row :: rows)
        then Ok (Records (row :: rows))
        else Raise TypeError
    end
  else Raise OverflowError.

End Hip3View.

(** * Properties of the collector *)

Module Hip3Facts.

Import Hip3.

(** ** The order of binary64 numbers *)

Section FloatOrder.

Ltac by_comparisons :=
  repeat match goal with
  | s : bool |- _ => destruct s
  end;
  try discriminate; try reflexivity;
  repeat match goal with
  | H : context [(?x ?= ?y)%Z] |- _ => destruct (Z.compare_spec x y); subst
  | |- context [(?x ?= ?y)%Z] => destruct (Z.compare_spec x y); subst
  | H : context [PosDef.Pos.compare_cont Eq ?x ?y] |- _ =>
      change (PosDef.Pos.compare_cont Eq x y) with (Pos.compare x y) in H;
      destruct (Pos.compare_spec x y); subst
  | |- context [PosDef.Pos.compare_cont Eq ?x ?y] =>
      change (PosDef.Pos.compare_cont Eq x y) with (Pos.compare x y);
      destruct (Pos.compare_spec x y); subst
  end;
  simpl in *; try discriminate; try reflexivity; try lia.

Lemma SFleb_trans (a b c : spec_float) :
  SFleb a b = true -> SFleb b c = true -> SFleb a c = true.
Proof.
  unfold SFleb, SFcompare.
  destruct a as [sa|sa| |sa ma ea], b as [sb|sb| |sb mb eb], c as [sc|sc| |sc mc ec];
    try discriminate; try reflexivity; by_comparisons.
Qed.


Lemma SFleb_false_leb (a b : spec_float) :
  sf_nan a = false -> sf_nan b = false -> SFleb a b = false -> SFleb b a = true.
Proof.
  unfold SFleb, SFcompare.
  destruct a as [sa|sa| |sa ma ea], b as [sb|sb| |sb mb eb];
    try discriminate; try reflexivity; intros _ _; by_comparisons.
Qed.



Lemma SFltb_not_nan (a b : spec_float) :
  SFltb a b = true -> sf_nan a = false /\ sf_nan b = false.
Proof.
  unfold SFltb, SFcompare.
  destruct a as [sa|sa| |sa ma ea], b as [sb|sb| |sb mb eb]; try discriminate; auto.
Qed.

Lemma SFeqb_not_nan (a : spec_float) : SFeqb a a = negb (sf_nan a).
Proof.
  unfold SFeqb, SFcompare.
  destruct a as [sa|sa| |sa ma ea]; try reflexivity; by_comparisons.
Qed.


Lemma is_nan_spec (x : float) : is_nan x = sf_nan (Prim2SF x).
Proof.
  unfold is_nan. rewrite FloatAxioms.eqb_spec, SFeqb_not_nan. apply negb_involutive.
Qed.


Lemma ltb_not_nan (x y : float) :
  (x <? y)%float = true -> is_nan x = false /\ is_nan y = false.
Proof.
  rewrite FloatAxioms.ltb_spec, !is_nan_spec. apply SFltb_not_nan.
Qed.



Lemma leb_false_leb (x y : float) :
  is_nan x = false -> is_nan y = false ->
  (x <=? y)%float = false -> (y <=? x)%float = true.
Proof.
  rewrite !is_nan_spec, !FloatAxioms.leb_spec. apply SFleb_false_leb.
Qed.

Lemma leb_trans (x y z : float) :
  (x <=? y)%float = true -> (y <=? z)%float = true -> (x <=? z)%float = true.
Proof.
  rewrite !FloatAxioms.leb_spec. apply SFleb_trans.
Qed.


(** A product with a zero is a zero or a NaN. *)
Lemma mul_zero_r (x y : float) :
  (y =? 0)%float = true ->
  ((x * y)%float =? 0)%float = true \/ is_nan (x * y)%float = true.
Proof.
  rewrite !FloatAxioms.eqb_spec, is_nan_spec, FloatAxioms.mul_spec.
  change (Prim2SF 0%float) with (S754_zero false).
  unfold SF64mul, SFmul, SFeqb, SFcompare.
  destruct (Prim2SF y) as [sy|sy| |sy my ey];
    try discriminate; try (destruct sy; discriminate).
  intros _. destruct (Prim2SF x) as [sx|sx| |sx mx ex]; simpl; auto.
Qed.

(** What SQLite stores for a positive float is that float. *)
Lemma sql_real_positive (x : float) :
  (0 <? x)%float = true -> sql_real x = x.
Proof.
  unfold sql_real. rewrite FloatAxioms.ltb_spec, FloatAxioms.eqb_spec.
  change (Prim2SF 0%float) with (S754_zero false).
  unfold SFltb, SFeqb, SFcompare.
  destruct (Prim2SF x) as [sx|sx| |sx mx ex]; try discriminate; try reflexivity.
  - destruct sx; [discriminate|reflexivity].
  - destruct sx; [discriminate|reflexivity].
Qed.

End FloatOrder.

(** ** The filter of [get_hip3_markets] *)

Section Filter.

Variable float_of_str : string -> option float.

Lemma parse_market_some (d q : string) (name v1 v2 v3 v4 : json) (row : market_row) :
  parse_market float_of_str d q name v1 v2 v3 v4 = Ok (Some row) <->
  exists px oi vol f,
    float_or_zero float_of_str v1 = Ok px /\
    float_or_zero float_of_str v3 = Ok oi /\
    float_or_zero float_of_str v2 = Ok vol /\
    float_or_zero float_of_str v4 = Ok f /\
    (0 <? vol)%float = true /\
    row = row_of d q name px oi vol f.
Proof.
  unfold parse_market, bind, row_of.
  split.
  - destruct (float_or_zero float_of_str v1) as [px|e1]; [|destruct e1; discriminate].
    destruct (float_or_zero float_of_str v3) as [oi|e2]; [|destruct e2; discriminate].
    destruct (float_or_zero float_of_str v2) as [vol|e3]; [|destruct e3; discriminate].
    destruct (float_or_zero float_of_str v4) as [f|e4]; [|destruct e4; discriminate].
    destruct (0 <? vol)%float eqn:Hv; [|discriminate].
    intro H. injection H as <-.
    exists px, oi, vol, f. repeat split; try reflexivity. exact Hv.
  - intros (px & oi & vol & f & -> & -> & -> & -> & Hv & ->).
    now rewrite Hv.
Qed.

(** C4, as the code has it. The filter keeps the [i]-th pair, as [row], if
    and only if the descriptor and the context are dictionaries, each of the
    four fields converts without an error, the converted 24h volume is
    strictly positive, and [row] carries the converted numbers with
    [openInterestUSD] equal to open interest in contracts times mark price. *)
Theorem filter_keeps_iff (d q : string) (ctxs : json) (i : nat) (m : json)
    (row : market_row) :
  loop_body float_of_str d q ctxs i m = Ok (Some row) <->
  exists name c px oi vol f,
    dict_get m "name" (JStr "N/A") = Ok name /\
    py_index ctxs i = Ok c /\
    parsed float_of_str c "markPx" = Ok px /\
    parsed float_of_str c "openInterest" = Ok oi /\
    parsed float_of_str c "dayNtlVlm" = Ok vol /\
    parsed float_of_str c "funding" = Ok f /\
    (0 <? vol)%float = true /\
    row = row_of d q name px oi vol f /\
    openInterestUSD row = (oi * px)%float.
Proof.
  unfold loop_body, parsed.
  destruct (dict_get m "name" (JStr "N/A")) as [name|e] eqn:Hname; simpl.
  2:{ split; [discriminate|]. intros (? & ? & ? & ? & ? & ? & H & _). discriminate. }
  destruct (py_index ctxs i) as [c|e] eqn:Hc; simpl.
  2:{ split; [discriminate|]. intros (? & ? & ? & ? & ? & ? & _ & H & _). discriminate. }
  destruct c as [| b | n | x | s | l | kvs]; simpl;
    try (split; [discriminate|];
         intros (? & c' & ? & ? & ? & ? & _ & H & H' & _);
         injection H as <-; discriminate).
  rewrite parse_market_some.
  split.
  - intros (px & oi & vol & f & H1 & H2 & H3 & H4 & Hv & ->).
    exists name, (JObj kvs), px, oi, vol, f. simpl. now repeat split.
  - intros (name' & c' & px & oi & vol & f & Hn & Hc' & H1 & H2 & H3 & H4 & Hv & -> & _).
    injection Hn as <-. injection Hc' as <-. simpl in *.
    exists px, oi, vol, f. now repeat split.
Qed.

(** [float] raises one of three exceptions. *)
Lemma float_or_zero_raise (v : json) (e : exn) :
  float_or_zero float_of_str v = Raise e ->
  e = ValueError \/ e = TypeError \/ e = OverflowError.
Proof.
  unfold float_or_zero, py_float.
  destruct (truthy v); [|discriminate].
  destruct v as [| b | n | x | s | l | kvs]; try discriminate;
    try (intro H; injection H as <-; now auto).
  - destruct (is_infinity (float_of_int n)); [|discriminate].
    intro H; injection H as <-; now auto.
  - destruct (float_of_str s); [discriminate|].
    intro H; injection H as <-; now auto.
Qed.

Lemma parsed_dict (kvs : list (string * json)) (k : string) :
  parsed float_of_str (JObj kvs) k =
  float_or_zero float_of_str (match assoc k kvs with Some v => v | None => JStr "0" end).
Proof. reflexivity. Qed.

(** The first of the four conversions that raises decides: the pair is
    dropped when the exception is one the inner [try] catches, and the
    exception leaves the loop otherwise. *)
Lemma loop_body_conversions (d q : string) (cs : list json) (i : nat) (m : json)
    (kvs : list (string * json)) (e : exn) :
  is_dict m = true ->
  nth_error cs i = Some (JObj kvs) ->
  conversions float_of_str (JObj kvs) = Raise e ->
  loop_body float_of_str d q (JList cs) i m = if caught e then Ok None else Raise e.
Proof.
  intros Hm Hc He.
  destruct m as [| b | n | x | s | l | mk]; try discriminate.
  unfold loop_body. simpl. rewrite Hc. simpl.
  unfold conversions in He. rewrite !parsed_dict in He.
  unfold parse_market, bind in *.
  destruct (float_or_zero float_of_str _) as [px|e1] eqn:E1 in He.
  2:{ injection He as <-. rewrite E1.
      destruct (float_or_zero_raise _ _ E1) as [-> | [-> | ->]]; reflexivity. }
  rewrite E1.
  destruct (float_or_zero float_of_str _) as [oi|e3] eqn:E3 in He.
  2:{ injection He as <-. rewrite E3.
      destruct (float_or_zero_raise _ _ E3) as [-> | [-> | ->]]; reflexivity. }
  rewrite E3.
  destruct (float_or_zero float_of_str _) as [vol|e2] eqn:E2 in He.
  2:{ injection He as <-. rewrite E2.
      destruct (float_or_zero_raise _ _ E2) as [-> | [-> | ->]]; reflexivity. }
  rewrite E2.
  destruct (float_or_zero float_of_str _) as [f|e4] eqn:E4 in He.
  2:{ injection He as <-. rewrite E4.
      destruct (float_or_zero_raise _ _ E4) as [-> | [-> | ->]]; reflexivity. }
  discriminate.
Qed.

(** The four conversions raise when one of the fields does not convert, and
    then with the exception of one of the fields. *)
Lemma conversions_raise (kvs : list (string * json)) :
  (forall e, conversions float_of_str (JObj kvs) = Raise e ->
     (e = ValueError \/ e = TypeError \/ e = OverflowError) /\
     exists k, In k numeric_fields /\ parsed float_of_str (JObj kvs) k = Raise e) /\
  (forall k e, In k numeric_fields -> parsed float_of_str (JObj kvs) k = Raise e ->
     exists e', conversions float_of_str (JObj kvs) = Raise e').
Proof.
  unfold conversions, bind, numeric_fields. split.
  - intros e He.
    destruct (parsed float_of_str (JObj kvs) "markPx") as [px|e1] eqn:E1.
    2:{ injection He as <-. split.
        - rewrite parsed_dict in E1. exact (float_or_zero_raise _ _ E1).
        - exists "markPx"%string. split; [simpl; tauto|assumption]. }
    destruct (parsed float_of_str (JObj kvs) "openInterest") as [oi|e3] eqn:E3.
    2:{ injection He as <-. split.
        - rewrite parsed_dict in E3. exact (float_or_zero_raise _ _ E3).
        - exists "openInterest"%string. split; [simpl; tauto|assumption]. }
    destruct (parsed float_of_str (JObj kvs) "dayNtlVlm") as [vol|e2] eqn:E2.
    2:{ injection He as <-. split.
        - rewrite parsed_dict in E2. exact (float_or_zero_raise _ _ E2).
        - exists "dayNtlVlm"%string. split; [simpl; tauto|assumption]. }
    destruct (parsed float_of_str (JObj kvs) "funding") as [f|e4] eqn:E4.
    2:{ injection He as <-. split.
        - rewrite parsed_dict in E4. exact (float_or_zero_raise _ _ E4).
        - exists "funding"%string. split; [simpl; tauto|assumption]. }
    discriminate.
  - intros k e Hk He.
    destruct (parsed float_of_str (JObj kvs) "markPx") as [px|e1] eqn:E1;
      [|eexists; reflexivity].
    destruct (parsed float_of_str (JObj kvs) "openInterest") as [oi|e3] eqn:E3;
      [|eexists; reflexivity].
    destruct (parsed float_of_str (JObj kvs) "dayNtlVlm") as [vol|e2] eqn:E2;
      [|eexists; reflexivity].
    destruct (parsed float_of_str (JObj kvs) "funding") as [f|e4] eqn:E4;
      [|eexists; reflexivity].
    exfalso. simpl in Hk.
    destruct Hk as [<- | [<- | [<- | [<- | []]]]]; congruence.
Qed.

Lemma loop_body_nth (d q : string) (cs cs' : list json) (i j : nat) (m : json) :
  nth_error cs i = nth_error cs' j ->
  loop_body float_of_str d q (JList cs) i m = loop_body float_of_str d q (JList cs') j m.
Proof.
  intro H. unfold loop_body. simpl. now rewrite H.
Qed.

Lemma markets_loop_tail (d q : string) (c : json) (cs : list json) (i : nat)
    (u : list json) :
  markets_loop float_of_str d q (JList (c :: cs)) (S i) u =
  markets_loop float_of_str d q (JList cs) i u.
Proof.
  revert i. induction u as [|m u IH]; intro i; simpl; [reflexivity|].
  rewrite (loop_body_nth d q (c :: cs) cs (S i) i) by reflexivity.
  now rewrite IH.
Qed.

(** Removing a pair that is dropped leaves the result of the batch as it was. *)
Lemma markets_loop_skip (d q : string) (pre post upre upost : list json) (c m : json) :
  List.length upre = List.length pre ->
  loop_body float_of_str d q (JList [c]) 0 m = Ok None ->
  markets_loop float_of_str d q (JList (pre ++ c :: post)) 0 (upre ++ m :: upost) =
  markets_loop float_of_str d q (JList (pre ++ post)) 0 (upre ++ upost).
Proof.
  revert pre. induction upre as [|a upre IH]; intros pre Hlen Hdrop.
  - destruct pre; [|discriminate]. simpl.
    rewrite (loop_body_nth d q (c :: post) [c] 0 0) by reflexivity.
    rewrite Hdrop. simpl. rewrite markets_loop_tail.
    now destruct (markets_loop float_of_str d q (JList post) 0 upost).
  - destruct pre as [|p pre]; [discriminate|]. simpl.
    rewrite (loop_body_nth d q (p :: pre ++ c :: post) (p :: pre ++ post) 0 0) by reflexivity.
    rewrite !markets_loop_tail.
    rewrite IH; [reflexivity| |exact Hdrop].
    simpl in Hlen. now injection Hlen.
Qed.

(** A pair whose loop body raises makes the batch raise, whatever the pairs
    around it. *)
Lemma markets_loop_raises (d q : string) (pre post upre upost : list json) (c m : json)
    (e : exn) :
  List.length upre = List.length pre ->
  loop_body float_of_str d q (JList [c]) 0 m = Raise e ->
  exists e', markets_loop float_of_str d q (JList (pre ++ c :: post)) 0
                          (upre ++ m :: upost) = Raise e'.
Proof.
  revert pre. induction upre as [|a upre IH]; intros pre Hlen Hraise.
  - destruct pre; [|discriminate]. simpl.
    rewrite (loop_body_nth d q (c :: post) [c] 0 0) by reflexivity.
    rewrite Hraise. eexists; reflexivity.
  - destruct pre as [|p pre]; [discriminate|]. simpl.
    destruct (loop_body float_of_str d q (JList (p :: pre ++ c :: post)) 0 a);
      simpl; [|eexists; reflexivity].
    rewrite markets_loop_tail.
    destruct (IH pre) as [e' He']; [simpl in Hlen; now injection Hlen|exact Hraise|].
    rewrite He'. eexists; reflexivity.
Qed.

(** C5, as the code has it. A field that is missing counts as the string
    ["0"], which [float] reads as zero; a field whose value is false in
    Python (null, false, zero, the empty string, list or object) counts as
    zero; any other value is converted by [float]. When the first of the
    four conversions of a pair that raises ends in a [ValueError] or a
    [TypeError], the pair is dropped and the batch yields what it yields
    without the pair. When it ends in an [OverflowError], the exception
    leaves the loop and the batch yields nothing. A pair has such a first
    exception exactly when one of its fields does not convert, and no
    conversion raises any other exception. *)
Theorem field_defaults_and_row_isolation :
  (forall kvs k,
      assoc k kvs = None -> float_of_str "0" = Some 0%float ->
      parsed float_of_str (JObj kvs) k = Ok 0%float) /\
  (forall kvs k v,
      assoc k kvs = Some v -> truthy v = false ->
      parsed float_of_str (JObj kvs) k = Ok 0%float) /\
  (forall kvs k v,
      assoc k kvs = Some v -> truthy v = true ->
      parsed float_of_str (JObj kvs) k = py_float float_of_str v) /\
  (forall d q pre kvs post upre m upost e,
      List.length upre = List.length pre ->
      is_dict m = true ->
      conversions float_of_str (JObj kvs) = Raise e ->
      e = ValueError \/ e = TypeError ->
      filter_pair float_of_str d q m (JObj kvs) = Ok None /\
      markets_loop float_of_str d q (JList (pre ++ JObj kvs :: post)) 0
                   (upre ++ m :: upost) =
      markets_loop float_of_str d q (JList (pre ++ post)) 0 (upre ++ upost)) /\
  (forall d q pre kvs post upre m upost,
      List.length upre = List.length pre ->
      is_dict m = true ->
      conversions float_of_str (JObj kvs) = Raise OverflowError ->
      filter_pair float_of_str d q m (JObj kvs) = Raise OverflowError /\
      exists e, markets_loop float_of_str d q (JList (pre ++ JObj kvs :: post)) 0
                             (upre ++ m :: upost) = Raise e) /\
  (forall kvs,
      (forall e, conversions float_of_str (JObj kvs) = Raise e ->
         (e = ValueError \/ e = TypeError \/ e = OverflowError) /\
         exists k, In k numeric_fields /\ parsed float_of_str (JObj kvs) k = Raise e) /\
      (forall k e, In k numeric_fields -> parsed float_of_str (JObj kvs) k = Raise e ->
         exists e', conversions float_of_str (JObj kvs) = Raise e')).
Proof.
  split; [|split; [|split; [|split; [|split]]]].
  - intros kvs k Hk H0. rewrite parsed_dict, Hk.
    unfold float_or_zero. simpl. now rewrite H0.
  - intros kvs k v Hk Hv. rewrite parsed_dict, Hk.
    unfold float_or_zero. now rewrite Hv.
  - intros kvs k v Hk Hv. rewrite parsed_dict, Hk.
    unfold float_or_zero. now rewrite Hv.
  - intros d q pre kvs post upre m upost e Hlen Hm He Hcaught.
    assert (Hdrop : filter_pair float_of_str d q m (JObj kvs) = Ok None).
    { unfold filter_pair.
      rewrite (loop_body_conversions d q [JObj kvs] 0 m kvs e Hm eq_refl He).
      now destruct Hcaught as [-> | ->]. }
    split; [exact Hdrop|]. now apply markets_loop_skip.
  - intros d q pre kvs post upre m upost Hlen Hm He.
    assert (Hraise : filter_pair float_of_str d q m (JObj kvs) = Raise OverflowError).
    { unfold filter_pair.
      now rewrite (loop_body_conversions d q [JObj kvs] 0 m kvs _ Hm eq_refl He). }
    split; [exact Hraise|].
    exact (markets_loop_raises d q pre post upre upost (JObj kvs) m OverflowError
                               Hlen Hraise).
  - exact conversions_raise.
Qed.

End Filter.

(** C4, counterexample to the specification's sentence. The volume of this pair
    converts to [5], which is positive, and the pair is dropped all the same,
    because its funding rate is the string ["abc"], which [float] rejects. *)
Lemma volume_positive_yet_dropped :
  (forall fos, parsed fos ctx_bad_funding "dayNtlVlm" = Ok 5%float) /\
  (0 <? 5)%float = true /\
  (forall fos, fos "abc"%string = None ->
               filter_pair fos "xyz" "USDC" m_btc ctx_bad_funding = Ok None).
Proof.
  split; [reflexivity|]. split; [reflexivity|].
  intros fos Habc. unfold filter_pair, loop_body, parse_market. simpl.
  unfold float_or_zero. simpl. now rewrite Habc.
Qed.

(** C5, counterexample to the specification's sentence. A mark price that is the
    string ["abc"] is not read as zero: the pair is dropped, whereas the same
    pair with the mark price [0] is kept. And a failure to convert is not
    always kept to its row: a mark price that is an int beyond the range of
    binary64 raises [OverflowError], and the deployer's batch of three
    yields no row, whereas it yields two without that pair. *)
Lemma non_numeric_is_not_zero :
  (forall fos, fos "abc"%string = None ->
               filter_pair fos "xyz" "USDC" m_btc (JObj kvs_bad_price) = Ok None) /\
  (forall fos,
      filter_pair fos "xyz" "USDC" m_btc
                  (JObj (set_field "markPx" (JInt 0) kvs_bad_price))
      = Ok (Some (row_of "xyz" "USDC" (JStr "BTC") 0 3 5 0))) /\
  (forall fos, parsed fos ctx_huge_price "markPx" = Raise OverflowError) /\
  (forall fos, get_hip3_markets fos net_huge_price "xyz" "USDC" = []) /\
  (forall fos,
      get_hip3_markets fos (fun _ => answer (body_of [(m_btc, ctx_good); (m_btc, ctx_good)]))
                       "xyz" "USDC"
      = [row_of "xyz" "USDC" (JStr "BTC") 2 3 7 1;
         row_of "xyz" "USDC" (JStr "BTC") 2 3 7 1]).
Proof.
  split; [|split; [|split; [|split]]].
  - intros fos Habc. unfold filter_pair, loop_body, parse_market. simpl.
    unfold float_or_zero. simpl. now rewrite Habc.
  - intro fos. vm_compute. reflexivity.
  - intro fos. vm_compute. reflexivity.
  - intro fos. vm_compute. reflexivity.
  - intro fos. vm_compute. reflexivity.
Qed.

(** C5 at a concrete batch: the second pair has a mark price that does not
    convert, and the batch yields what its first pair yields alone. *)
Lemma field_defaults_and_row_isolation_witness :
  parsed float_of_zero_only (JObj []) "markPx" = Ok 0%float /\
  parsed float_of_zero_only (JObj [("funding"%string, JStr "")]) "funding" = Ok 0%float /\
  markets_loop float_of_zero_only "xyz" "USDC"
               (JList ([ctx_good] ++ JObj kvs_bad_price :: [])) 0
               ([m_btc] ++ m_btc :: []) =
  markets_loop float_of_zero_only "xyz" "USDC" (JList ([ctx_good] ++ [])) 0
               ([m_btc] ++ []).
Proof.
  destruct (field_defaults_and_row_isolation float_of_zero_only)
    as (Hmissing & Hfalse & _ & Hdrop & _).
  split; [|split].
  - apply Hmissing; reflexivity.
  - apply (Hfalse _ _ (JStr "")); reflexivity.
  - apply (Hdrop "xyz" "USDC" [ctx_good] kvs_bad_price [] [m_btc] m_btc []
                 ValueError)%string.
    + reflexivity.
    + reflexivity.
    + reflexivity.
    + now left.
Defined.

(** ** The rows of [get_hip3_markets] *)

Section Fetched.

Variable float_of_str : string -> option float.

Lemma loop_body_row (d q : string) (ctxs : json) (i : nat) (m : json)
    (row : market_row) :
  loop_body float_of_str d q ctxs i m = Ok (Some row) ->
  exists name px oi vol f,
    (0 <? vol)%float = true /\ row = row_of d q name px oi vol f.
Proof.
  unfold loop_body, bind.
  destruct (dict_get m "name" (JStr "N/A")) as [name|]; [|discriminate].
  destruct (py_index ctxs i) as [c|]; [|discriminate].
  destruct (dict_get c "markPx" (JStr "0")) as [v1|]; [|discriminate].
  destruct (dict_get c "dayNtlVlm" (JStr "0")) as [v2|]; [|discriminate].
  destruct (dict_get c "openInterest" (JStr "0")) as [v3|]; [|discriminate].
  destruct (dict_get c "funding" (JStr "0")) as [v4|]; [|discriminate].
  intro H. apply parse_market_some in H.
  destruct H as (px & oi & vol & f & _ & _ & _ & _ & Hv & ->).
  now exists name, px, oi, vol, f.
Qed.

(** What holds of every row the filter can build holds of every row of a
    batch. *)
Lemma markets_loop_Forall (P : market_row -> Prop) (d q : string) (ctxs : json)
    (u : list json) :
  (forall name px oi vol f,
     (0 <? vol)%float = true -> P (row_of d q name px oi vol f)) ->
  forall i l,
    markets_loop float_of_str d q ctxs i u = Ok l -> Forall P l.
Proof.
  intro HP. induction u as [|m u IH]; intros i l; simpl.
  - intro H. injection H as <-. constructor.
  - destruct (loop_body float_of_str d q ctxs i m) as [r|e] eqn:Hr; [|discriminate].
    simpl.
    destruct (markets_loop float_of_str d q ctxs (S i) u) as [rs|e] eqn:Hrs;
      [|discriminate].
    simpl. intro H. injection H as <-.
    apply Forall_app. split; [|now apply (IH (S i))].
    destruct r as [row|]; simpl; constructor; [|constructor].
    apply loop_body_row in Hr.
    destruct Hr as (name & px & oi & vol & f & Hv & ->). now apply HP.
Qed.

Lemma get_hip3_markets_Forall (P : market_row -> Prop) (net : network) (d q : string) :
  (forall name px oi vol f,
     (0 <? vol)%float = true -> P (row_of d q name px oi vol f)) ->
  Forall P (get_hip3_markets float_of_str net d q).
Proof.
  intro HP. unfold get_hip3_markets.
  destruct (fetch_markets float_of_str net d q) as [l|e] eqn:H; [|constructor].
  unfold fetch_markets, markets_of_body, bind in H.
  destruct (net d) as [r|]; [|discriminate].
  destruct (raise_for_status r); [|discriminate].
  destruct (response_json r) as [data|]; [|discriminate].
  destruct (py_index data 0) as [metadata|]; [|discriminate].
  destruct (py_index data 1) as [ctxs|]; [|discriminate].
  destruct (dict_get metadata "universe" (JList [])) as [universe|]; [|discriminate].
  destruct (py_iter universe) as [items|]; [|discriminate].
  now apply (markets_loop_Forall P d q ctxs items HP 0 l).
Qed.

(** X1. Whatever the network answers, every row [get_hip3_markets] returns
    has a 24h volume that is strictly positive, and so no NaN, and carries
    the deployer name and the quote currency the function was called with;
    when its mark price is zero, its open interest in quote is zero or, the
    open interest in contracts being infinite or a NaN, a NaN. *)
Theorem fetched_rows_are_active (net : network) (d q : string) :
  Forall (fun m => (0 <? dayNtlVlm m)%float = true /\
                   is_nan (dayNtlVlm m) = false /\
                   dex m = d /\ quote m = q /\
                   ((markPx m =? 0)%float = true ->
                    (openInterestUSD m =? 0)%float = true \/
                    is_nan (openInterestUSD m) = true))
         (get_hip3_markets float_of_str net d q).
Proof.
  apply get_hip3_markets_Forall.
  intros name px oi vol f Hv. unfold row_of. simpl.
  split; [exact Hv|]. split; [exact (proj2 (ltb_not_nan _ _ Hv))|].
  split; [reflexivity|]. split; [reflexivity|].
  apply mul_zero_r.
Qed.

Lemma markets_loop_length (d q : string) (ctxs : json) (u : list json) :
  forall i l,
    markets_loop float_of_str d q ctxs i u = Ok l ->
    (List.length l <= List.length u)%nat.
Proof.
  induction u as [|m u IH]; intros i l; simpl.
  - intro H. injection H as <-. simpl. lia.
  - destruct (loop_body float_of_str d q ctxs i m) as [r|e]; [|discriminate].
    simpl.
    destruct (markets_loop float_of_str d q ctxs (S i) u) as [rs|e] eqn:Hrs;
      [|discriminate].
    simpl. intro H. injection H as <-.
    specialize (IH (S i) rs Hrs). rewrite length_app.
    destruct r; simpl; lia.
Qed.

(** X2. When the call for a deployer is answered with a JSON body,
    [get_hip3_markets] returns at most one row per descriptor of the body's
    ["universe"]: the list returned is never longer than that list. *)
Theorem fetched_rows_bounded (net : network) (d q : string) (r : response)
    (data : json) :
  net d = Ok r ->
  json_body r = Some data ->
  (List.length (get_hip3_markets float_of_str net d q)
   <= List.length (descriptors data))%nat.
Proof.
  intros Hnet Hbody.
  unfold get_hip3_markets, fetch_markets, response_json, markets_of_body, descriptors.
  rewrite Hnet. simpl.
  destruct (raise_for_status r); simpl; [|lia].
  rewrite Hbody. simpl.
  destruct (py_index data 0) as [metadata|]; simpl; [|lia].
  destruct (py_index data 1) as [ctxs|]; simpl.
  2:{ lia. }
  destruct (dict_get metadata "universe" (JList [])) as [universe|]; simpl; [|lia].
  destruct (py_iter universe) as [items|]; simpl; [|lia].
  destruct (markets_loop float_of_str d q ctxs 0 items) as [l|] eqn:Hl; simpl; [|lia].
  now apply (markets_loop_length d q ctxs items 0 l).
Qed.

(** Every collected row has a positive volume and the name of a configured
    deployer. *)
Lemma collect_Forall (P : market_row -> Prop) (net : network)
    (configs : list (string * string)) :
  (forall d q name px oi vol f,
     In (d, q) configs -> (0 <? vol)%float = true ->
     P (row_of d q name px oi vol f)) ->
  Forall P (collect float_of_str net configs).
Proof.
  intro HP. unfold collect. apply Forall_forall. intros m Hm.
  apply in_flat_map in Hm. destruct Hm as ([d q] & Hc & Hm).
  pose proof (get_hip3_markets_Forall P net d q) as H.
  rewrite Forall_forall in H. apply H; [|exact Hm].
  intros name px oi vol f Hv. now apply HP.
Qed.

End Fetched.

(** X2 at the network whose every answer is the body with one market. *)
Lemma fetched_rows_bounded_witness :
  (List.length (get_hip3_markets float_of_zero_only net_300 "xyz" "USDC")
   <= List.length (descriptors body_one))%nat.
Proof.
  apply (fetched_rows_bounded float_of_zero_only net_300 "xyz" "USDC"
           {| status_code := 300; json_body := Some body_one |} body_one);
    reflexivity.
Defined.

(** ** The report of [get_all_hip3_markets_combined] *)

Section Report.

Variable float_of_str : string -> option float.


Lemma insert_by_key_perm (x : market_row) (l : list market_row) :
  Permutation (x :: l) (insert_by_key x l).
Proof.
  induction l as [|y l IH]; simpl; [reflexivity|].
  destruct (sort_key y <? sort_key x)%float; [|reflexivity].
  rewrite perm_swap. now apply perm_skip.
Qed.

Lemma sort_by_key_perm (l : list market_row) : Permutation l (sort_by_key l).
Proof.
  induction l as [|x l IH]; simpl; [reflexivity|].
  rewrite <- insert_by_key_perm. now apply perm_skip.
Qed.





(** **** Counts *)





(** **** The ranked list *)

(** The ranked list is printed to its end when every name has a format, and
    the print raises [TypeError] at the first name that has none. *)
Lemma print_markets_outcome (l : list market_row) :
  (forallb (fun m => printable (market m)) l = true /\ print_markets l = Ok tt) \/
  (forallb (fun m => printable (market m)) l = false /\
   print_markets l = Raise TypeError).
Proof.
  induction l as [|m l IH]; simpl; [now left|].
  destruct (printable (market m)); simpl; [exact IH|now right].
Qed.


Lemma forallb_perm {A : Type} (p : A -> bool) (l l' : list A) :
  Permutation l l' -> forallb p l = forallb p l'.
Proof.
  induction 1 as [|x l l' _ IH|x y l|l l' l'' _ IH1 _ IH2]; simpl.
  - reflexivity.
  - now rewrite IH.
  - now destruct (p x), (p y).
  - congruence.
Qed.

(** What a run reports, by whether every collected name has a format. *)
Lemma report_of_outcome (configs : list (string * string)) (collected : list market_row) :
  let sorted := sort_by_key collected in
  (forallb (fun m => printable (market m)) collected = true /\
   report_of configs collected =
   Ok {| all_markets := sorted;
         total_count := List.length sorted;
         total_volume := float_sum (map dayNtlVlm sorted);
         total_oi := float_sum (map openInterestUSD sorted);
         by_dex := map (summarise sorted) configs |}) \/
  (forallb (fun m => printable (market m)) collected = false /\
   report_of configs collected = Raise TypeError).
Proof.
  intro sorted. unfold report_of. fold sorted.
  rewrite (forallb_perm _ _ _ (sort_by_key_perm collected)). fold sorted.
  destruct (print_markets_outcome sorted) as [[Hp ->] | [Hp ->]]; [left|right];
    now split.
Qed.


End Report.


(** ** A failing source *)

Section Isolation.

Variable float_of_str : string -> option float.













(** What the function returns, by whether every collected name has a
    format. *)
Lemma combined_outcome (net : network) :
  let collected := collect float_of_str net dex_configs in
  (forallb (fun m => printable (market m)) collected = true /\
   get_all_hip3_markets_combined float_of_str net = Ok (sort_by_key collected)) \/
  (forallb (fun m => printable (market m)) collected = false /\
   get_all_hip3_markets_combined float_of_str net = Raise TypeError).
Proof.
  intro collected. unfold get_all_hip3_markets_combined, run_report. fold collected.
  destruct (report_of_outcome dex_configs collected) as [[Hp ->] | [Hp ->]];
    [left|right]; now split.
Qed.


End Isolation.



(** ** [insert_market_data] *)

Section Store.

Variable real_text : float -> string.

Lemma bind_market_storable (m : market_row) :
  storable m = true ->
  bind_market real_text (market m) = Ok (Some (market_text real_text (market m))).
Proof.
  unfold storable, market_text.
  destruct (market m) as [| b | n | x | s | l | kvs]; simpl; try discriminate;
    try reflexivity.
  - intros ->. reflexivity.
  - destruct (is_nan x); [discriminate|reflexivity].
Qed.

Lemma bind_market_not_storable (m : market_row) :
  storable m = false ->
  bind_market real_text (market m) = Ok None \/
  exists e, bind_market real_text (market m) = Raise e.
Proof.
  unfold storable.
  destruct (market m) as [| b | n | x | s | l | kvs]; simpl; try discriminate;
    try (now left); try (right; eexists; reflexivity).
  - intros ->. right. eexists; reflexivity.
  - destruct (is_nan x); [now left|discriminate].
Qed.

Lemma execute_insert_ok (now : Z) (m : market_row) (work : market_db) :
  storable m = true ->
  (last_id work <? 2 ^ 63 - 1) = true ->
  execute_insert real_text now m work =
  Ok {| table := table work ++ [stored real_text now (last_id work + 1) m];
        last_id := last_id work + 1 |}.
Proof.
  intros Hs Hr. unfold execute_insert.
  rewrite (bind_market_storable m Hs). cbn [bind]. rewrite Hr. reflexivity.
Qed.

Lemma execute_insert_raises (now : Z) (m : market_row) (work : market_db) :
  storable m && (last_id work <? 2 ^ 63 - 1) = false ->
  exists e, execute_insert real_text now m work = Raise e.
Proof.
  intro H. unfold execute_insert.
  destruct (storable m) eqn:Hs.
  - cbn [andb] in H. rewrite (bind_market_storable m Hs). cbn [bind]. rewrite H.
    eexists; reflexivity.
  - destruct (bind_market_not_storable m Hs) as [-> | [e ->]]; cbn [bind].
    + destruct (last_id work <? 2 ^ 63 - 1); eexists; reflexivity.
    + eexists; reflexivity.
Qed.

Lemma has_room_step (work work' : market_db) (n : nat) :
  last_id work' = last_id work + 1 ->
  has_room work (S n) = (last_id work <? 2 ^ 63 - 1) && has_room work' n.
Proof.
  intro H. unfold has_room. destruct n as [|k].
  - rewrite andb_true_r. apply eq_true_iff_eq. rewrite !Z.ltb_lt. lia.
  - rewrite H. apply eq_true_iff_eq. rewrite andb_true_iff, !Z.ltb_lt. lia.
Qed.

(** After at least one INSERT the cursor's [rowcount] is [1], whatever it
    was before the loop. *)
Lemma insert_loop_ok (now : Z) (markets : list market_row) :
  forall work rowcount,
    forallb storable markets = true ->
    has_room work (List.length markets) = true ->
    insert_loop real_text now markets work rowcount =
    Ok ({| table := table work ++ stored_batch real_text now (last_id work) markets;
           last_id := last_id work + Z.of_nat (List.length markets) |},
        match markets with [] => rowcount | _ :: _ => 1 end).
Proof.
  induction markets as [|m rest IH]; intros work rowcount Hs Hr.
  - simpl. rewrite app_nil_r, Z.add_0_r. now destruct work.
  - simpl in Hs. apply andb_true_iff in Hs. destruct Hs as [Hm Hrest].
    cbn [List.length] in Hr.
    rewrite (has_room_step work
               {| table := table work ++ [stored real_text now (last_id work + 1) m];
                  last_id := last_id work + 1 |} _ eq_refl) in Hr.
    apply andb_true_iff in Hr. destruct Hr as [Hid Hroom].
    cbn [insert_loop]. rewrite (execute_insert_ok now m work Hm Hid).
    cbn [bind]. rewrite (IH _ 1 Hrest Hroom). cbn [table last_id stored_batch].
    rewrite <- app_assoc. cbn [app].
    replace (last_id work + 1 + Z.of_nat (List.length rest))
      with (last_id work + Z.of_nat (List.length (m :: rest)))
      by (cbn [List.length]; lia).
    now destruct rest.
Qed.

(** A batch with a name SQLite cannot store, or larger than the room the
    counter has, makes the loop raise. *)
Lemma insert_loop_raises (now : Z) (markets : list market_row) :
  forall work rowcount,
    forallb storable markets && has_room work (List.length markets) = false ->
    exists e, insert_loop real_text now markets work rowcount = Raise e.
Proof.
  induction markets as [|m rest IH]; intros work rowcount H; [discriminate|].
  cbn [insert_loop].
  destruct (storable m && (last_id work <? 2 ^ 63 - 1)) eqn:Hm.
  - apply andb_true_iff in Hm. destruct Hm as [Hs Hid].
    rewrite (execute_insert_ok now m work Hs Hid). cbn [bind].
    apply IH. cbn [forallb List.length] in H.
    rewrite (has_room_step work
               {| table := table work ++ [stored real_text now (last_id work + 1) m];
                  last_id := last_id work + 1 |} _ eq_refl) in H.
    rewrite Hs, Hid in H. exact H.
  - destruct (execute_insert_raises now m work Hm) as [e ->]. cbn [bind].
    now exists e.
Qed.

Lemma stored_batch_timestamp (now : Z) (markets : list market_row) :
  forall last,
    Forall (fun r => timestamp r = now) (stored_batch real_text now last markets).
Proof.
  induction markets as [|m rest IH]; intro last; simpl; constructor; auto.
Qed.


(** What [insert_market_data] leaves and returns, by whether every name of
    the batch can be stored and the counter has room for the batch. *)
Lemma insert_outcome (now : Z) (markets : list market_row) (db : market_db) :
  (forallb storable markets && has_room db (List.length markets) = true /\
   insert_market_data real_text now markets db =
   ({| table := table db ++ stored_batch real_text now (last_id db) markets;
       last_id := last_id db + Z.of_nat (List.length markets) |},
    Ok (match markets with [] => -1 | _ :: _ => 1 end)))
  \/
  (forallb storable markets && has_room db (List.length markets) = false /\
   exists e, insert_market_data real_text now markets db = (db, Raise e)).
Proof.
  unfold insert_market_data.
  destruct (forallb storable markets && has_room db (List.length markets)) eqn:H.
  - left. split; [reflexivity|].
    apply andb_true_iff in H. destruct H as [Hs Hr].
    now rewrite (insert_loop_ok now markets db (-1) Hs Hr).
  - right. split; [reflexivity|].
    destruct (insert_loop_raises now markets db (-1) H) as [e ->]. now exists e.
Qed.



Lemma stored_batch_ids (now : Z) (markets : list market_row) :
  forall last,
    Forall (fun r => last < id r <= last + Z.of_nat (List.length markets))
           (stored_batch real_text now last markets) /\
    NoDup (map id (stored_batch real_text now last markets)).
Proof.
  induction markets as [|m rest IH]; intro last; simpl.
  - split; constructor.
  - destruct (IH (last + 1)) as [Hb Hnd]. split.
    + constructor; [simpl; lia|].
      eapply Forall_impl; [|exact Hb]. simpl. intros r Hr. lia.
    + constructor; [|exact Hnd].
      intro Hin. apply in_map_iff in Hin. destruct Hin as (r & Hid & Hr).
      rewrite Forall_forall in Hb. specialize (Hb r Hr). lia.
Qed.

Lemma stored_batch_volumes (now : Z) (markets : list market_row) :
  forall last,
    Forall (fun m => (0 <? dayNtlVlm m)%float = true) markets ->
    Forall (fun r => (0 <? volume_24h r)%float = true)
           (stored_batch real_text now last markets).
Proof.
  induction markets as [|m rest IH]; intros last H; simpl; [constructor|].
  apply Forall_cons_iff in H. destruct H as [Hm Hrest].
  constructor; [|now apply IH].
  unfold stored. cbn [volume_24h]. now rewrite (sql_real_positive _ Hm).
Qed.

(** X4. [insert_market_data] only appends: whatever the batch, the table it
    leaves is the table it found followed by new rows, each new row has an
    identifier above the old counter and the timestamp of the call, and the
    counter does not decrease. An empty batch leaves the database as it was
    and returns [-1], the [rowcount] of a cursor that has executed nothing. *)
Theorem insert_is_append_only (now : Z) (markets : list market_row) (db : market_db) :
  let db' := fst (insert_market_data real_text now markets db) in
  (exists new_rows,
      table db' = table db ++ new_rows /\
      Forall (fun r => last_id db < id r /\ timestamp r = now) new_rows) /\
  last_id db <= last_id db' /\
  insert_market_data real_text now [] db = (db, Ok (-1)).
Proof.
  intro db'. unfold db'.
  destruct (insert_outcome now markets db) as [[_ Heq] | [_ [e Heq]]];
    rewrite Heq; cbn [fst table last_id].
  - split; [|split; [lia|now destruct db]].
    exists (stored_batch real_text now (last_id db) markets). split; [reflexivity|].
    destruct (stored_batch_ids now markets (last_id db)) as [Hb _].
    pose proof (stored_batch_timestamp now markets (last_id db)) as Ht.
    rewrite Forall_forall in *. intros r Hr. split; [apply Hb in Hr; lia|now apply Ht].
  - split; [|split; [lia|now destruct db]].
    exists []. split; [now rewrite app_nil_r|constructor].
Qed.

Lemma insert_preserves_ids (now : Z) (markets : list market_row) (db : market_db) :
  ids_fresh db -> ids_fresh (fst (insert_market_data real_text now markets db)).
Proof.
  intros [Hnd Hle].
  destruct (insert_outcome now markets db) as [[_ Heq] | [_ [e Heq]]];
    rewrite Heq; cbn [fst]; [|now split].
  destruct (stored_batch_ids now markets (last_id db)) as [Hb Hnew].
  unfold ids_fresh. cbn [table last_id]. split.
  - rewrite map_app. apply NoDup_app; [exact Hnd|exact Hnew|].
    intros x Hold Hfresh.
    apply in_map_iff in Hold. destruct Hold as (r & <- & Hr).
    apply in_map_iff in Hfresh. destruct Hfresh as (r' & Heq' & Hr').
    rewrite Forall_forall in Hle, Hb.
    specialize (Hle r Hr). specialize (Hb r' Hr'). lia.
  - apply Forall_app. split.
    + eapply Forall_impl; [|exact Hle]. simpl. intros r Hr. lia.
    + eapply Forall_impl; [|exact Hb]. simpl. intros r Hr. lia.
Qed.

(** The invariants of the table survive an insert. *)
Lemma insert_preserves (now : Z) (markets : list market_row) (db : market_db) :
  Forall (fun m => (0 <? dayNtlVlm m)%float = true) markets ->
  volumes_positive db -> ids_fresh db ->
  volumes_positive (fst (insert_market_data real_text now markets db)) /\
  ids_fresh (fst (insert_market_data real_text now markets db)).
Proof.
  intros Hm Hv Hi. split; [|now apply insert_preserves_ids].
  destruct (insert_outcome now markets db) as [[_ Heq] | [_ [e Heq]]];
    rewrite Heq; cbn [fst]; [|exact Hv].
  unfold volumes_positive. cbn [table].
  apply Forall_app. split; [exact Hv|now apply stored_batch_volumes].
Qed.

(** X5. When the identifiers of the table are distinct and bounded by the
    [AUTOINCREMENT] counter, they still are after [insert_market_data],
    whatever the batch. *)
Theorem insert_keeps_ids_fresh (now : Z) (markets : list market_row) (db : market_db) :
  ids_fresh db -> ids_fresh (fst (insert_market_data real_text now markets db)).
Proof.
  intro H. destruct (insert_preserves_ids now markets db H) as [Hnd Hle].
  split; assumption.
Qed.

End Store.



(** X5 at the table two inserted rows leave, and a batch with a name that
    cannot be stored. *)
Lemma insert_keeps_ids_fresh_witness :
  ids_fresh (fst (insert_market_data no_real_text 1700000600
                    (two_rows ++ [nameless_row])
                    (fst (insert_market_data no_real_text 1700000000 two_rows
                            empty_db)))).
Proof.
  apply insert_keeps_ids_fresh.
  simpl. split.
  - repeat constructor; simpl; intuition lia.
  - repeat constructor; simpl; lia.
Defined.

(** ** The script *)

Section Script.

Variable float_of_str : string -> option float.
Variable real_text : float -> string.

Lemma collected_volumes (net : network) (reported : list market_row) :
  get_all_hip3_markets_combined float_of_str net = Ok reported ->
  Forall (fun m => (0 <? dayNtlVlm m)%float = true) reported.
Proof.
  intro E.
  destruct (combined_outcome float_of_str net) as [[_ Heq] | [_ Heq]];
    rewrite Heq in E; [|discriminate].
  assert (Hr : sort_by_key (collect float_of_str net dex_configs) = reported)
    by congruence.
  rewrite <- Hr. apply (Permutation_Forall (sort_by_key_perm _)).
  apply collect_Forall. intros d q name px oi vol f _ Hv. exact Hv.
Qed.

Lemma main_preserves (net : network) (now : Z) (file : option market_db) :
  file_ok file -> file_ok (Some (fst (main float_of_str real_text net now file))).
Proof.
  intro Hok.
  assert (Hdb : volumes_positive (create_database file) /\
                ids_fresh (create_database file)).
  { destruct file as [db|]; simpl; [exact Hok|].
    repeat split; constructor. }
  destruct Hdb as [Hv Hi].
  unfold main.
  pose proof (collected_volumes net) as Hm.
  destruct (get_all_hip3_markets_combined float_of_str net) as [[|m ms]|e] eqn:E.
  - simpl. now split.
  - pose proof (insert_preserves real_text now (m :: ms) (create_database file)
                  (Hm _ eq_refl) Hv Hi) as Hp.
    destruct (insert_market_data real_text now (m :: ms) (create_database file))
      as [db' [n|e]]; exact Hp.
  - simpl. now split.
Qed.

(** X6. Started without a database file and run any number of times,
    whatever the network answers and whatever the clock shows, the script
    leaves a table in which every row has a strictly positive 24h volume and
    no two rows share an identifier. *)
Theorem runs_keep_table_invariants (runs : list (network * Z)) :
  file_ok (main_runs float_of_str real_text runs None).
Proof.
  assert (H : forall file,
             file_ok file -> file_ok (main_runs float_of_str real_text runs file)).
  { induction runs as [|[net now] rest IH]; intros file Hok; [exact Hok|].
    simpl. apply IH. now apply main_preserves. }
  apply H. exact I.
Qed.


End Script.

End Hip3Facts.


(** * Properties of the vault query service *)

Module WebQueryFacts.

Import WebQuery.

(** **** Order and sums of rationals *)

Lemma Qltb_lt (a b : Q) : Qltb a b = true <-> (a < b)%Q.
Proof.
  unfold Qltb. rewrite negb_true_iff.
  split; intro H.
  - apply Qnot_le_lt. intro Hle. apply Qle_bool_iff in Hle. congruence.
  - destruct (Qle_bool b a) eqn:E; [|reflexivity].
    apply Qle_bool_iff in E. exfalso. exact (Qlt_not_le _ _ H E).
Qed.

Lemma fold_left_Qplus_acc (l : list Q) (a : Q) :
  (fold_left Qplus l a == a + fold_left Qplus l 0)%Q.
Proof.
  revert a. induction l as [|x l IH]; intro a; simpl.
  - ring.
  - rewrite (IH (a + x)%Q), (IH (0 + x)%Q). ring.
Qed.

Lemma py_sum_cons (x : Q) (l : list Q) : (py_sum (x :: l) == x + py_sum l)%Q.
Proof.
  unfold py_sum. simpl. rewrite fold_left_Qplus_acc. ring.
Qed.

Section Formatting.

Lemma append_assoc (a b c : string) : ((a ++ b) ++ c = a ++ (b ++ c))%string.
Proof.
  induction a as [|x a IH]; simpl; [reflexivity|]. now rewrite IH.
Qed.

Lemma digit_is_digit (n : Z) :
  exists c, digit n = String c EmptyString /\ is_digit c = true.
Proof.
  unfold digit. eexists. split; [reflexivity|].
  assert (H : (0 <= n mod 10 < 10)%Z) by (apply Z.mod_pos_bound; lia).
  unfold is_digit.
  rewrite nat_ascii_embedding by lia.
  apply andb_true_iff. split; apply Nat.leb_le; lia.
Qed.



Lemma format_2f_two_decimals (x : Q) : two_decimals (format_2f x).
Proof.
  unfold format_2f, two_decimals.
  set (n := round_half_even (Z.abs (Qnum x) * 100) (Z.pos (Qden x))).
  destruct (digit_is_digit (n / 10)) as (d1 & -> & H1).
  destruct (digit_is_digit n) as (d2 & -> & H2).
  exists ((if (Qnum x <? 0)%Z then "-" else "") ++ decimal (n / 100))%string, d1, d2.
  split; [|now split].
  now rewrite append_assoc.
Qed.


End Formatting.


(** ** The statement of [query_vaults] *)

Lemma key_eqb_eq (a b : vault_key) : key_eqb a b = true <-> a = b.
Proof.
  destruct a as [a1 a2], b as [b1 b2]. unfold key_eqb. simpl.
  rewrite andb_true_iff, !String.eqb_eq. split.
  - now intros [-> ->].
  - intro H. now injection H.
Qed.

Lemma fold_left_max_ge (l : list Z) (x : Z) :
  x <= fold_left Z.max l x /\ Forall (fun y => y <= fold_left Z.max l x) l.
Proof.
  revert x. induction l as [|y l IH]; intro x; simpl.
  - split; [lia|constructor].
  - destruct (IH (Z.max x y)) as [H1 H2]. split; [lia|].
    constructor; [lia|exact H2].
Qed.

Lemma fold_left_max_in (l : list Z) (x : Z) :
  fold_left Z.max l x = x \/ In (fold_left Z.max l x) l.
Proof.
  revert x. induction l as [|y l IH]; intro x; simpl; [now left|].
  destruct (IH (Z.max x y)) as [H|H]; [|now right; right].
  rewrite H. destruct (Z.max_spec x y) as [[_ ->] | [_ ->]]; auto.
Qed.

(** [MAX] returns an element of the group that bounds the group. *)
Lemma sql_max_spec (l : list Z) (m : Z) :
  sql_max l = Some m -> In m l /\ Forall (fun y => y <= m) l.
Proof.
  destruct l as [|x l]; [discriminate|]. simpl.
  intro H. injection H as <-.
  destruct (fold_left_max_ge l x) as [H1 H2].
  split.
  - destruct (fold_left_max_in l x) as [-> | H]; auto.
  - now constructor.
Qed.

Lemma NoDup_map_In_inj {A B : Type} (f : A -> B) (l : list A) (a b : A) :
  NoDup (map f l) -> In a l -> In b l -> f a = f b -> a = b.
Proof.
  induction l as [|x l IH]; simpl; [contradiction|].
  intros Hnd Ha Hb Hf. apply NoDup_cons_iff in Hnd. destruct Hnd as [Hx Hnd].
  destruct Ha as [-> | Ha], Hb as [-> | Hb]; auto.
  - exfalso. apply Hx. rewrite Hf. now apply in_map.
  - exfalso. apply Hx. rewrite <- Hf. now apply in_map.
Qed.



Lemma flat_map_singleton {A B : Type} (f : A -> list B) (g : A -> B) (l : list A) :
  (forall a, In a l -> f a = [g a]) -> flat_map f l = map g l.
Proof.
  induction l as [|x l IH]; simpl; intro H; [reflexivity|].
  rewrite (H x) by now left. simpl. f_equal. apply IH. auto.
Qed.

Section Statement.

Variable in_window : vault_snapshot -> bool.
Variable db : list vault_snapshot.
Hypothesis ids_distinct : NoDup (map id db).

Lemma group_keys_In (k : vault_key) :
  In k (group_keys in_window db) <->
  exists r, In r db /\ in_window r = true /\ key_of r = k.
Proof.
  unfold group_keys, window_rows. rewrite nodup_In, in_map_iff.
  split; intros (r & H1 & H2).
  - apply filter_In in H2. exists r. tauto.
  - exists r. split; [tauto|]. apply filter_In. tauto.
Qed.

Lemma group_In (k : vault_key) (r : vault_snapshot) :
  In r (group in_window db k) <-> In r db /\ in_window r = true /\ key_of r = k.
Proof.
  unfold group, window_rows. rewrite !filter_In, key_eqb_eq. tauto.
Qed.

Lemma max_ids_In (m : Z) :
  In m (max_ids in_window db) <->
  exists k, In k (group_keys in_window db) /\
            sql_max (map id (group in_window db k)) = Some m.
Proof.
  unfold max_ids. rewrite in_flat_map. split; intros (k & Hk & H); exists k.
  - split; [exact Hk|].
    destruct (sql_max (map id (group in_window db k))); simpl in H; [|contradiction].
    destruct H as [-> | []]. reflexivity.
  - split; [exact Hk|]. rewrite H. now left.
Qed.

(** A row selected by [id IN (...)] is in the window and has the greatest
    identifier among the rows of its vault in the window. *)
Lemma latest_rows_spec (r : vault_snapshot) :
  In r (latest_rows in_window db) ->
  In r db /\ in_window r = true /\
  forall s, In s db -> in_window s = true -> key_of s = key_of r -> id s <= id r.
Proof.
  unfold latest_rows. rewrite filter_In, existsb_exists.
  intros (Hr & m & Hm & Heq). apply Z.eqb_eq in Heq. subst m.
  apply max_ids_In in Hm. destruct Hm as (k & Hk & Hmax).
  apply sql_max_spec in Hmax. destruct Hmax as [Hin Hle].
  apply in_map_iff in Hin. destruct Hin as (s & Hid & Hs).
  apply group_In in Hs. destruct Hs as (Hs & Hw & Hkey).
  assert (s = r) by (eapply NoDup_map_In_inj; eauto). subst s.
  split; [exact Hr|]. split; [exact Hw|].
  intros s Hs' Hws Hks. rewrite Forall_forall in Hle. apply Hle.
  apply in_map. apply group_In. split; [exact Hs'|]. split; [exact Hws|]. congruence.
Qed.



(** The rows of [avg_apy] that match a key: the row of its group, when the
    key has one. *)
Lemma avg_apy_match (k : vault_key) :
  filter (fun aa => String.eqb (fst k) (aa_platform aa)
                    && String.eqb (snd k) (aa_vault_name aa))
         (avg_apy in_window db)
  = if in_dec key_eq_dec k (group_keys in_window db)
    then [{| aa_platform := fst k;
             aa_vault_name := snd k;
             aa_average_apy := sql_avg (map apy_percentage (group in_window db k)) |}]
    else [].
Proof.
  assert (Hnd : NoDup (group_keys in_window db)) by apply NoDup_nodup.
  unfold avg_apy. revert Hnd.
  generalize (group_keys in_window db) as keys.
  induction keys as [|y keys IH]; intro Hnd; [reflexivity|].
  apply NoDup_cons_iff in Hnd. destruct Hnd as [Hy Hnd].
  specialize (IH Hnd). cbn [map filter aa_platform aa_vault_name].
  change (String.eqb (fst k) (fst y) && String.eqb (snd k) (snd y))
    with (key_eqb k y).
  rewrite IH.
  destruct (key_eqb k y) eqn:E.
  - apply key_eqb_eq in E. subst y.
    destruct (in_dec key_eq_dec k keys) as [Hin|_]; [contradiction|].
    destruct (in_dec key_eq_dec k (k :: keys)) as [_|Hout]; [reflexivity|].
    exfalso. apply Hout. now left.
  - assert (Hne : y <> k).
    { intros ->. assert (key_eqb k k = true) by now apply key_eqb_eq. congruence. }
    destruct (in_dec key_eq_dec k keys) as [Hin|Hout];
      destruct (in_dec key_eq_dec k (y :: keys)) as [Hin'|Hout']; try reflexivity.
    + exfalso. apply Hout'. now right.
    + exfalso. destruct Hin' as [Heq|Hin']; [now apply Hne|now apply Hout].
Qed.

Lemma group_without_key (k : vault_key) :
  ~ In k (group_keys in_window db) -> group in_window db k = [].
Proof.
  intro Hk. destruct (group in_window db k) as [|r rest] eqn:E; [reflexivity|].
  exfalso. apply Hk. apply group_keys_In.
  assert (Hr : In r (group in_window db k)) by (rewrite E; now left).
  apply group_In in Hr. now exists r.
Qed.

(** The LEFT JOIN yields one row per selected snapshot: the snapshot's
    columns with the average of its group, which is NULL when the group has
    no row in [avg_apy]. *)
Lemma left_join_rows :
  left_join in_window db = map (join_row in_window db) (latest_rows in_window db).
Proof.
  unfold left_join, latest_snapshots, join_row.
  rewrite flat_map_concat_map, map_map, <- flat_map_concat_map.
  apply flat_map_singleton. intros r _.
  change (ls_platform (ls_of r)) with (fst (key_of r)).
  change (ls_vault_name (ls_of r)) with (snd (key_of r)).
  rewrite (avg_apy_match (key_of r)).
  destruct (in_dec key_eq_dec (key_of r) (group_keys in_window db)) as [_|Hout].
  - reflexivity.
  - now rewrite (group_without_key _ Hout).
Qed.

End Statement.

(** ** The answer of [query_vaults] *)

Lemma insert_sorted_perm {A : Type} (leb : A -> A -> bool) (x : A) (l : list A) :
  Permutation (x :: l) (insert_sorted leb x l).
Proof.
  induction l as [|y l IH]; simpl; [reflexivity|].
  destruct (leb x y); [reflexivity|].
  rewrite perm_swap. now apply perm_skip.
Qed.

Lemma order_by_perm {A : Type} (leb : A -> A -> bool) (l : list A) :
  Permutation l (order_by leb l).
Proof.
  unfold order_by. induction l as [|x l IH]; simpl; [reflexivity|].
  rewrite <- insert_sorted_perm. now apply perm_skip.
Qed.

Section Answer.

Variable q : request.
Variable now : Z.
Variable db : list vault_snapshot.
Hypothesis ids_distinct : NoDup (map id db).

(** Every returned vault is the joined row of a selected snapshot. *)
Lemma query_vaults_In (v : vault) :
  In v (query_vaults q now db) ->
  exists r, In r (latest_rows (date_condition now (days_back q)) db) /\ v = vault_of_row (join_row (date_condition now (days_back q)) db r).
Proof.
  unfold query_vaults, query_rows. rewrite in_map_iff.
  intros (row & <- & Hrow).
  apply (Permutation_in _ (Permutation_sym (order_by_perm _ _))) in Hrow.
  apply filter_In in Hrow. destruct Hrow as [Hrow _].
  rewrite left_join_rows in Hrow.
  apply in_map_iff in Hrow. destruct Hrow as (r & <- & Hr).
  now exists r.
Qed.



End Answer.


(** C2. The [average_apy] of every vault in the answer of [query_vaults] is
    the arithmetic mean of the APY samples of its pair in the window, that
    is, of the non-NULL [apy_percentage] values of the stored rows of the
    pair that satisfy the date condition, the one that selects the latest
    snapshot; it is NULL, not zero, when the pair has no sample. *)
Theorem average_is_window_mean (q : request) (now : Z) (db : list vault_snapshot)
    (v : vault) :
  In v (query_vaults q now db) ->
  let samples := apy_samples (date_condition now (days_back q)) db (v_key v) in
  v_average_apy v =
  match samples with
  | [] => None
  | _ :: _ => Some (py_sum samples / inject_Z (Z.of_nat (List.length samples)))%Q
  end.
Proof.
  intros Hv samples.
  apply (query_vaults_In q now db) in Hv.
  destruct Hv as (r & Hr & ->).
  unfold samples, apy_samples. simpl.
  unfold sql_avg, group, window_rows, key_of, mean.
  now destruct (known _).
Qed.


(** C2 at the sample table: the first vault has the samples 4 and 6. *)
Lemma average_is_window_mean_witness :
  exists v,
    In v (query_vaults (sample_request "apy" Desc) 0 sample_db) /\
    v_key v = ("aave", "usdc")%string /\
    v_average_apy v = Some (py_sum [4; 6] / inject_Z 2)%Q.
Proof.
  eexists. split; [left; reflexivity|]. split; [reflexivity|].
  apply (average_is_window_mean (sample_request "apy" Desc) 0 sample_db).
  left; reflexivity.
Defined.

(** ** The order of the answer *)

Section Ordering.

Context {A : Type} (leb : A -> A -> bool).
Hypothesis leb_total : forall a b, leb a b = false -> leb b a = true.
Hypothesis leb_trans : forall a b c, leb a b = true -> leb b c = true -> leb a c = true.

Lemma insert_sorted_sorted (x : A) (l : list A) :
  StronglySorted (fun a b => leb a b = true) l ->
  StronglySorted (fun a b => leb a b = true) (insert_sorted leb x l).
Proof.
  induction 1 as [|y l Hl IH Hy]; simpl.
  - repeat constructor.
  - destruct (leb x y) eqn:E.
    + constructor; [now constructor|].
      constructor; [exact E|].
      eapply Forall_impl; [|exact Hy]. intros z Hz. now apply (leb_trans x y z).
    + constructor; [exact IH|].
      rewrite <- insert_sorted_perm. constructor; [|exact Hy].
      now apply leb_total.
Qed.

Lemma order_by_sorted (l : list A) :
  StronglySorted (fun a b => leb a b = true) (order_by leb l).
Proof.
  unfold order_by. induction l as [|x l IH]; simpl; [constructor|].
  now apply insert_sorted_sorted.
Qed.

End Ordering.

Lemma null_first_leb_total (a b : option Q) :
  null_first_leb a b = false -> null_first_leb b a = true.
Proof.
  destruct a as [x|], b as [y|]; simpl; try easy.
  intro H. apply Qle_bool_iff.
  destruct (Qle_bool x y) eqn:E; [discriminate|].
  apply Qlt_le_weak, Qnot_le_lt. intro Hle. apply Qle_bool_iff in Hle. congruence.
Qed.

Lemma null_first_leb_trans (a b c : option Q) :
  null_first_leb a b = true -> null_first_leb b c = true -> null_first_leb a c = true.
Proof.
  destruct a as [x|], b as [y|], c as [z|]; simpl; try easy.
  rewrite !Qle_bool_iff. intros. lra.
Qed.

Lemma key_leb_total (o : order) (key : result_row -> option Q) (a b : result_row) :
  key_leb o key a b = false -> key_leb o key b a = true.
Proof. destruct o; apply null_first_leb_total. Qed.

Lemma key_leb_trans (o : order) (key : result_row -> option Q) (a b c : result_row) :
  key_leb o key a b = true -> key_leb o key b c = true -> key_leb o key a c = true.
Proof.
  destruct o; simpl; intros H1 H2.
  - exact (null_first_leb_trans _ _ _ H1 H2).
  - exact (null_first_leb_trans _ _ _ H2 H1).
Qed.

(** In rows sorted on a nullable number, the NULL keys stand first when the
    order is ascending and last when it is descending. *)
Lemma sorted_nulls (o : order) (key : result_row -> option Q) (l : list result_row) :
  StronglySorted (fun a b => key_leb o key a b = true) l ->
  match o with
  | Asc => nulls_first (map (fun r => num_key (key r)) l) = true
  | Desc => nulls_last (map (fun r => num_key (key r)) l) = true
  end.
Proof.
  induction 1 as [|x l Hl IH Hx]; [now destruct o|].
  destruct o; simpl in *.
  - destruct (key x) as [v|] eqn:Ex; simpl; [|exact IH].
    apply forallb_forall. intros k Hk. apply in_map_iff in Hk.
    destruct Hk as (y & <- & Hy). rewrite Forall_forall in Hx.
    specialize (Hx y Hy). now destruct (key y).
  - destruct (key x) as [v|] eqn:Ex; simpl; [exact IH|].
    apply forallb_forall. intros k Hk. apply in_map_iff in Hk.
    destruct Hk as (y & <- & Hy). rewrite Forall_forall in Hx.
    specialize (Hx y Hy). now destruct (key y).
Qed.

Lemma text_keys_not_null {A : Type} (name : A -> string) (l : list A) :
  forallb (fun k => negb (is_null k)) (map (fun a => TextKey (name a)) l) = true.
Proof.
  induction l; simpl; auto.
Qed.

Lemma no_nulls_any_order (keys : list sort_value) :
  forallb (fun k => negb (is_null k)) keys = true ->
  nulls_first keys = true /\ nulls_last keys = true.
Proof.
  induction keys as [|k keys IH]; simpl; [auto|].
  intro H. apply andb_true_iff in H. destruct H as [Hk Hrest].
  apply negb_true_iff in Hk. rewrite Hk. split; [exact Hrest|]. now apply IH.
Qed.

(** C3, as the code has it. The statement has a plain [ORDER BY key ASC] or
    [ORDER BY key DESC], and SQLite sorts NULL before every value: in the
    answer the vaults whose sort key is NULL stand last when the order is
    descending and first when it is ascending. When the request sorts by
    name no key is NULL. *)
Theorem nulls_follow_direction (q : request) (now : Z) (db : list vault_snapshot) :
  let keys := map (v_sort_value q) (query_vaults q now db) in
  match sort_order q with
  | Desc => nulls_last keys = true
  | Asc => nulls_first keys = true
  end /\
  (by_name q = true -> forallb (fun k => negb (is_null k)) keys = true).
Proof.
  intro keys. unfold keys, by_name, v_sort_value, query_vaults, query_rows, row_leb.
  set (rows := filter (conditions q) (left_join (date_condition now (days_back q)) db)).
  assert (Hnum : forall key,
            match sort_order q with
            | Desc => nulls_last (map (fun r => num_key (key r))
                                      (order_by (key_leb (sort_order q) key) rows)) = true
            | Asc => nulls_first (map (fun r => num_key (key r))
                                      (order_by (key_leb (sort_order q) key) rows)) = true
            end).
  { intro key.
    pose proof (sorted_nulls (sort_order q) key
                  (order_by (key_leb (sort_order q) key) rows)
                  (order_by_sorted _ (key_leb_total _ key) (key_leb_trans _ key) rows)) as H.
    now destruct (sort_order q). }
  rewrite map_map.
  destruct (String.eqb (sort_by q) "apy");
    [split; [exact (Hnum r_latest_apy)|discriminate]|].
  destruct (String.eqb (sort_by q) "avg_apy");
    [split; [exact (Hnum r_average_apy)|discriminate]|].
  destruct (String.eqb (sort_by q) "deposits");
    [split; [exact (Hnum r_deposit_amount)|discriminate]|].
  pose proof (text_keys_not_null (fun r => v_vault_name (vault_of_row r))
                (order_by name_leb rows)) as Ht.
  split; [|intros _; exact Ht].
  destruct (no_nulls_any_order _ Ht). now destruct (sort_order q).
Qed.

(** C3, counterexample to the specification's sentence. Sorted by APY, ascending, the
    sample table yields the vault whose APY is NULL before the vault whose
    APY is 6. *)
Lemma ascending_puts_nulls_first :
  map (v_sort_value (sample_request "apy" Asc))
      (query_vaults (sample_request "apy" Asc) 0 sample_db)
  = [NullKey; NumKey 6] /\
  nulls_last (map (v_sort_value (sample_request "apy" Asc))
                  (query_vaults (sample_request "apy" Asc) 0 sample_db)) = false.
Proof.
  split; reflexivity.
Qed.

(** C3 at the sample table, sorted by name. *)
Lemma nulls_follow_direction_witness :
  forallb (fun k => negb (is_null k))
          (map (v_sort_value (sample_request "name" Asc))
               (query_vaults (sample_request "name" Asc) 0 sample_db)) = true.
Proof.
  apply (proj2 (nulls_follow_direction (sample_request "name" Asc) 0 sample_db)).
  reflexivity.
Defined.

(** ** [get_stats] *)

(** The overall aggregates range over the values that are not NULL, zero
    included, and are [0] when there is none. *)
Lemma overall_over_known (results : list result_row) :
  avg_latest_apy (overall results) = mean_or_zero (known (map r_latest_apy results)) /\
  avg_period_apy (overall results) = mean_or_zero (known (map r_average_apy results)) /\
  stat_max_apy (overall results) = max_or_zero (known (map r_latest_apy results)) /\
  stat_min_apy (overall results) = min_or_zero (known (map r_latest_apy results)) /\
  total_tvl (overall results) = sum_or_zero (known (map r_deposit_amount results)) /\
  avg_tvl (overall results) = mean_or_zero (known (map r_deposit_amount results)) /\
  mean_or_zero [] = 0%Q /\ max_or_zero [] = 0%Q /\ min_or_zero [] = 0%Q /\
  sum_or_zero [] = 0%Q.
Proof.
  repeat split.
Qed.

Lemma sum_or_zero_py_sum (l : list Q) : sum_or_zero l = py_sum l.
Proof. now destruct l. Qed.

(** Dropping the zeros does not change a sum: the group totals are the sums
    of the known values. *)
Lemma group_total_over_known (members : list result_row) :
  (g_total_tvl (stats_of_group members)
   == sum_or_zero (known (map r_deposit_amount members)))%Q.
Proof.
  unfold stats_of_group, if_true. cbn [g_total_tvl].
  rewrite !sum_or_zero_py_sum.
  induction (known (map r_deposit_amount members)) as [|x l IH]; [reflexivity|].
  simpl filter. destruct (Qeq_bool x 0) eqn:E; simpl negb; cbv iota.
  - rewrite py_sum_cons, IH. apply Qeq_bool_iff in E. rewrite E. ring.
  - now rewrite !py_sum_cons, IH.
Qed.

(** C6, the code at the failing input. The two vaults of the table are on
    one platform and have the latest APYs 0 and 10, both known. The overall
    mean is 5; the mean of the platform's entry is 10, because the
    per-group lists are built with a truth test, which drops the zero. *)
Lemma group_mean_skips_zero :
  let a := get_stats (sample_request "apy" Desc) 0 zero_apy_db in
  let rows := stats_rows (sample_request "apy" Desc) 0 zero_apy_db in
  map r_platform rows = ["aave"; "aave"]%string /\
  map r_latest_apy rows = [Some 0%Q; Some 10%Q] /\
  g_count (platform_stats a "aave") = 2%nat /\
  (avg_latest_apy (st_overall a) == 5)%Q /\
  (g_avg_latest_apy (platform_stats a "aave") == 10)%Q.
Proof.
  repeat split.
Qed.

(** ** Further properties of [query_vaults] *)

Lemma query_rows_In (q : request) (now : Z) (db : list vault_snapshot) (r : result_row) :
  In r (query_rows q now db) <->
  In r (left_join (date_condition now (days_back q)) db) /\ conditions q r = true.
Proof.
  unfold query_rows. rewrite <- filter_In. split; intro H.
  - exact (Permutation_in _ (Permutation_sym (order_by_perm _ _)) H).
  - exact (Permutation_in _ (order_by_perm _ _) H).
Qed.

(** X8. Every vault in the answer of [query_vaults] passes every filter of
    the request: its platform is one of the requested platforms when the
    list is not empty, its type is the requested one, and its latest APY and
    deposit amount are known and within the bounds the request gives. *)
Theorem query_respects_filters (q : request) (now : Z) (db : list vault_snapshot)
    (v : vault) :
  In v (query_vaults q now db) ->
  (platforms q <> [] -> In (v_platform v) (platforms q)) /\
  (forall t, q_vault_type q = Some t -> t <> EmptyString -> v_vault_type v = t) /\
  (forall m, min_apy q = Some m ->
             exists a, v_latest_apy v = Some a /\ (m <= a)%Q) /\
  (forall m, max_apy q = Some m ->
             exists a, v_latest_apy v = Some a /\ (a <= m)%Q) /\
  (forall m, min_deposits q = Some m ->
             exists a, v_deposit_amount v = Some a /\ (m <= a)%Q).
Proof.
  unfold query_vaults. rewrite in_map_iff. intros (r & <- & Hr).
  apply query_rows_In in Hr. destruct Hr as [_ Hc].
  unfold conditions in Hc. rewrite !andb_true_iff in Hc.
  destruct Hc as ((((Hp & Ht) & Hmin) & Hmax) & Hdep). simpl.
  repeat split.
  - intro Hne. destruct (platforms q) as [|p ps] eqn:E; [contradiction|].
    apply existsb_exists in Hp. destruct Hp as (x & Hx & Heq).
    apply String.eqb_eq in Heq. now rewrite Heq.
  - intros t Hq Hne. rewrite Hq in Ht.
    destruct (String.eqb t EmptyString) eqn:E.
    + apply String.eqb_eq in E. contradiction.
    + now apply String.eqb_eq.
  - intros m Hq. rewrite Hq in Hmin.
    destruct (r_latest_apy r) as [a|]; [|discriminate].
    exists a. split; [reflexivity|]. now apply Qle_bool_iff.
  - intros m Hq. rewrite Hq in Hmax.
    destruct (r_latest_apy r) as [a|]; [|discriminate].
    exists a. split; [reflexivity|]. now apply Qle_bool_iff.
  - intros m Hq. rewrite Hq in Hdep.
    destruct (r_deposit_amount r) as [a|]; [|discriminate].
    exists a. split; [reflexivity|]. now apply Qle_bool_iff.
Qed.

(** X8 at the sample table and a request with every filter set: the one
    vault returned is on a requested platform. *)
Lemma query_respects_filters_witness :
  exists v,
    In v (query_vaults filtered_request 250 sample_db) /\
    In (v_platform v) (platforms filtered_request).
Proof.
  eexists. split; [left; reflexivity|].
  apply (query_respects_filters filtered_request 250 sample_db).
  - left; reflexivity.
  - discriminate.
Defined.

(** X9. The sort key and the direction only reorder the answer: the
    answers to two requests that differ in nothing else hold the same
    vaults, each as often. *)
Theorem sort_only_reorders (key : string) (o : order) (q : request) (now : Z)
    (db : list vault_snapshot) :
  Permutation (query_vaults q now db) (query_vaults (with_sort key o q) now db).
Proof.
  unfold query_vaults, query_rows. apply Permutation_map.
  rewrite <- (order_by_perm (row_leb q)).
  rewrite <- (order_by_perm (row_leb (with_sort key o q))).
  reflexivity.
Qed.

(** **** The order of names *)

Lemma ascii_compare_lt_trans (a b c : ascii) :
  Ascii.compare a b = Lt -> Ascii.compare b c = Lt -> Ascii.compare a c = Lt.
Proof.
  unfold Ascii.compare. rewrite !N.compare_lt_iff. apply N.lt_trans.
Qed.

Lemma string_compare_trans (a : string) :
  forall b c,
    String.compare a b <> Gt -> String.compare b c <> Gt -> String.compare a c <> Gt.
Proof.
  induction a as [|x a IH]; intros b c Hab Hbc.
  - destruct c; simpl; discriminate.
  - destruct b as [|y b]; [now simpl in Hab|].
    destruct c as [|z c]; [now simpl in Hbc|].
    simpl in *.
    destruct (Ascii.compare x y) eqn:Exy; [| |contradiction];
      destruct (Ascii.compare y z) eqn:Eyz; try contradiction.
    + apply Ascii.compare_eq_iff in Exy. subst y. rewrite Eyz. now apply (IH b c).
    + apply Ascii.compare_eq_iff in Exy. subst y. rewrite Eyz. discriminate.
    + apply Ascii.compare_eq_iff in Eyz. subst z. rewrite Exy. discriminate.
    + rewrite (ascii_compare_lt_trans x y z Exy Eyz). discriminate.
Qed.

Lemma string_leb_trans (a b c : string) :
  String.leb a b = true -> String.leb b c = true -> String.leb a c = true.
Proof.
  unfold String.leb. intros Hab Hbc.
  assert (H : String.compare a c <> Gt).
  { apply (string_compare_trans a b c).
    - destruct (String.compare a b); discriminate.
    - destruct (String.compare b c); discriminate. }
  destruct (String.compare a c); congruence.
Qed.

Lemma string_leb_false (a b : string) :
  String.leb a b = false -> String.leb b a = true.
Proof.
  intro H. destruct (String.leb_total a b) as [H'|H']; congruence.
Qed.

Lemma row_leb_total (q : request) (a b : result_row) :
  row_leb q a b = false -> row_leb q b a = true.
Proof.
  unfold row_leb.
  destruct (String.eqb (sort_by q) "apy"); [apply key_leb_total|].
  destruct (String.eqb (sort_by q) "avg_apy"); [apply key_leb_total|].
  destruct (String.eqb (sort_by q) "deposits"); [apply key_leb_total|].
  apply string_leb_false.
Qed.

Lemma row_leb_trans (q : request) (a b c : result_row) :
  row_leb q a b = true -> row_leb q b c = true -> row_leb q a c = true.
Proof.
  unfold row_leb.
  destruct (String.eqb (sort_by q) "apy"); [apply key_leb_trans|].
  destruct (String.eqb (sort_by q) "avg_apy"); [apply key_leb_trans|].
  destruct (String.eqb (sort_by q) "deposits"); [apply key_leb_trans|].
  apply string_leb_trans.
Qed.

Lemma StronglySorted_map {A B : Type} (f : A -> B) (R : B -> B -> Prop) (l : list A) :
  StronglySorted (fun x y => R (f x) (f y)) l -> StronglySorted R (map f l).
Proof.
  induction 1 as [|x l Hl IH Hx]; simpl; constructor; [exact IH|].
  apply Forall_map. exact Hx.
Qed.

Lemma StronglySorted_weaken {A : Type} (R S : A -> A -> Prop) (l : list A) :
  (forall a b, R a b -> S a b) -> StronglySorted R l -> StronglySorted S l.
Proof.
  intro HRS. induction 1 as [|x l Hl IH Hx]; constructor; [exact IH|].
  eapply Forall_impl; [|exact Hx]. intros y Hy. now apply HRS.
Qed.

Lemma num_key_in_order (o : order) (x y : option Q) :
  in_order o (num_key x) (num_key y) =
  match o with
  | Asc => null_first_leb x y
  | Desc => null_first_leb y x
  end.
Proof.
  destruct x, y, o; reflexivity.
Qed.

(** The clause chosen by [sort_by], read on the vaults built from two rows. *)
Lemma row_leb_in_order (q : request) (a b : result_row) :
  row_leb q a b =
  in_order (sort_order q) (v_sort_value q (vault_of_row a))
           (v_sort_value q (vault_of_row b)).
Proof.
  unfold row_leb, v_sort_value.
  destruct (String.eqb (sort_by q) "apy"); [now rewrite num_key_in_order|].
  destruct (String.eqb (sort_by q) "avg_apy"); [now rewrite num_key_in_order|].
  destruct (String.eqb (sort_by q) "deposits"); [now rewrite num_key_in_order|].
  reflexivity.
Qed.

(** X10. The answer of [query_vaults] is sorted on the requested key: of
    any two vaults the earlier may stand before the later, that is, its
    number is not greater when the order is ascending and not smaller when
    it is descending, NULL counting as the least number, and its name is not
    greater when the request sorts by name, whatever the direction. *)
Theorem answer_is_sorted (q : request) (now : Z) (db : list vault_snapshot) :
  StronglySorted
    (fun a b => in_order (sort_order q) (v_sort_value q a) (v_sort_value q b) = true)
    (query_vaults q now db).
Proof.
  unfold query_vaults. apply StronglySorted_map.
  eapply StronglySorted_weaken.
  - intros a b H. rewrite <- row_leb_in_order. exact H.
  - apply (order_by_sorted (row_leb q) (row_leb_total q) (row_leb_trans q)).
Qed.

(** ** Aggregates over lists of numbers *)

Section Aggregates.

Lemma fold_max_bounds (l : list Q) :
  forall x,
    (x <= fold_left (fun m y => if Qltb m y then y else m) l x)%Q /\
    Forall (fun y => (y <= fold_left (fun m y => if Qltb m y then y else m) l x)%Q) l.
Proof.
  induction l as [|y l IH]; intro x; simpl.
  - split; [lra|constructor].
  - destruct (Qltb x y) eqn:E.
    + apply Qltb_lt in E. destruct (IH y) as [H1 H2].
      split; [lra|]. constructor; [exact H1|exact H2].
    + assert (Hyx : (y <= x)%Q).
      { apply Qnot_lt_le. intro Hlt. apply Qltb_lt in Hlt. congruence. }
      destruct (IH x) as [H1 H2].
      split; [exact H1|]. constructor; [lra|exact H2].
Qed.

Lemma fold_min_bounds (l : list Q) :
  forall x,
    (fold_left (fun m y => if Qltb y m then y else m) l x <= x)%Q /\
    Forall (fun y => (fold_left (fun m y => if Qltb y m then y else m) l x <= y)%Q) l.
Proof.
  induction l as [|y l IH]; intro x; simpl.
  - split; [lra|constructor].
  - destruct (Qltb y x) eqn:E.
    + apply Qltb_lt in E. destruct (IH y) as [H1 H2].
      split; [lra|]. constructor; [exact H1|exact H2].
    + assert (Hxy : (x <= y)%Q).
      { apply Qnot_lt_le. intro Hlt. apply Qltb_lt in Hlt. congruence. }
      destruct (IH x) as [H1 H2].
      split; [exact H1|]. constructor; [lra|exact H2].
Qed.

(** Every element of a list lies between its minimum and its maximum. *)
Lemma min_max_bounds (l : list Q) :
  Forall (fun y => (min_or_zero l <= y <= max_or_zero l)%Q) l.
Proof.
  destruct l as [|x l]; [constructor|]. simpl.
  destruct (fold_max_bounds l x) as [M1 M2].
  destruct (fold_min_bounds l x) as [m1 m2].
  constructor; [split; assumption|].
  rewrite Forall_forall in *. intros y Hy. split; [now apply m2|now apply M2].
Qed.

Lemma known_In {A : Type} (x : A) (l : list (option A)) :
  In x (known l) <-> In (Some x) l.
Proof.
  unfold known. rewrite in_flat_map. split.
  - intros ([y|] & Hy & Hx); simpl in Hx; [|contradiction].
    destruct Hx as [->|[]]. exact Hy.
  - intro H. exists (Some x). split; [exact H|now left].
Qed.

Lemma not_none_In (c : result_row -> option Q) (rows : list result_row) (x : Q) :
  In x (not_none c rows) <-> exists r, In r rows /\ c r = Some x.
Proof.
  unfold not_none. rewrite known_In, in_map_iff. split.
  - intros (r & Hc & Hr). now exists r.
  - intros (r & Hr & Hc). now exists r.
Qed.

Lemma fold_max_In (l : list Q) :
  forall x, In (fold_left (fun m y => if Qltb m y then y else m) l x) (x :: l).
Proof.
  induction l as [|y l IH]; intro x; simpl; [now left|].
  destruct (Qltb x y).
  - right. apply IH.
  - destruct (IH x) as [H|H]; [now left|right; now right].
Qed.

Lemma fold_min_In (l : list Q) :
  forall x, In (fold_left (fun m y => if Qltb y m then y else m) l x) (x :: l).
Proof.
  induction l as [|y l IH]; intro x; simpl; [now left|].
  destruct (Qltb y x).
  - right. apply IH.
  - destruct (IH x) as [H|H]; [now left|right; now right].
Qed.

(** The minimum and the maximum of a non-empty list are elements of it. *)
Lemma min_max_attained (l : list Q) :
  l <> [] -> In (min_or_zero l) l /\ In (max_or_zero l) l.
Proof.
  destruct l as [|x l]; [congruence|]. intros _.
  split; [apply fold_min_In|apply fold_max_In].
Qed.

(** X11. The overall APY bounds of [get_stats] are consistent: every
    counted vault whose latest APY is known lies between [min_apy] and
    [max_apy]; when some APY is known both bounds are the latest APY of a
    counted vault, and when none is known the two bounds and the average
    are zero. *)
Theorem stats_min_mean_max (q : request) (now : Z) (db : list vault_snapshot) :
  let rows := stats_rows q now db in
  let o := st_overall (get_stats q now db) in
  (forall r x, In r rows -> r_latest_apy r = Some x ->
     (stat_min_apy o <= x <= stat_max_apy o)%Q) /\
  ((exists r x, In r rows /\ r_latest_apy r = Some x) ->
     exists lo hi, In lo rows /\ In hi rows /\
       r_latest_apy lo = Some (stat_min_apy o) /\
       r_latest_apy hi = Some (stat_max_apy o)) /\
  ((forall r, In r rows -> r_latest_apy r = None) ->
     stat_min_apy o = 0%Q /\ avg_latest_apy o = 0%Q /\ stat_max_apy o = 0%Q).
Proof.
  intros rows o.
  change (stat_min_apy o) with (min_or_zero (not_none r_latest_apy rows)).
  change (stat_max_apy o) with (max_or_zero (not_none r_latest_apy rows)).
  change (avg_latest_apy o) with (mean_or_zero (not_none r_latest_apy rows)).
  split; [|split].
  - intros r x Hr Hx.
    pose proof (min_max_bounds (not_none r_latest_apy rows)) as Hb.
    rewrite Forall_forall in Hb. apply Hb. apply not_none_In. now exists r.
  - intros (r & x & Hr & Hx).
    assert (Hne : not_none r_latest_apy rows <> []).
    { intro E. assert (Hin : In x (not_none r_latest_apy rows))
        by (apply not_none_In; now exists r).
      rewrite E in Hin. contradiction. }
    destruct (min_max_attained _ Hne) as [Hlo Hhi].
    apply not_none_In in Hlo. apply not_none_In in Hhi.
    destruct Hlo as (lo & Hlo & Elo). destruct Hhi as (hi & Hhi & Ehi).
    exists lo, hi. repeat split; assumption.
  - intro Hnone.
    assert (E : not_none r_latest_apy rows = []).
    { destruct (not_none r_latest_apy rows) as [|x l] eqn:E; [reflexivity|].
      assert (Hin : In x (not_none r_latest_apy rows)) by (rewrite E; now left).
      apply not_none_In in Hin. destruct Hin as (r & Hr & Hx).
      rewrite (Hnone r Hr) in Hx. discriminate. }
    rewrite E. repeat split.
Qed.

End Aggregates.

(** ** The breakdowns of [get_stats] *)

Section Grouping.

Context {A K : Type} (key : A -> K) (same : K -> K -> bool).
Hypothesis same_eq : forall a b, same a b = true <-> a = b.

Lemma member_excludes (k : K) (ks : list K) (r : A) :
  ~ In k ks -> same (key r) k = true -> existsb (same (key r)) ks = false.
Proof.
  intros Hk E. apply same_eq in E.
  destruct (existsb (same (key r)) ks) eqn:X; [|reflexivity].
  apply existsb_exists in X. destruct X as (g & Hg & Eg).
  apply same_eq in Eg. exfalso. apply Hk. congruence.
Qed.

(** Over distinct values, the sizes of the groups add up to the number of
    rows whose value is among them. *)
Lemma group_counts (rows : list A) (ks : list K) :
  NoDup ks ->
  list_sum (map (fun g => List.length (filter (fun r => same (key r) g) rows)) ks)
  = List.length (filter (fun r => existsb (same (key r)) ks) rows).
Proof.
  induction 1 as [|k ks Hk Hnd IH]; simpl.
  - induction rows as [|r rows IHr]; [reflexivity|exact IHr].
  - rewrite IH. clear IH.
    induction rows as [|r rows IHr]; [reflexivity|].
    simpl. destruct (same (key r) k) eqn:E.
    + rewrite (member_excludes k ks r Hk E). simpl. simpl in IHr. lia.
    + simpl. destruct (existsb (same (key r)) ks); simpl; simpl in IHr; lia.
Qed.

Lemma all_members (dec : forall a b : K, {a = b} + {a <> b}) (rows : list A) :
  filter (fun r => existsb (same (key r)) (nodup dec (map key rows))) rows = rows.
Proof.
  apply forallb_filter_id. apply forallb_forall. intros r Hr.
  apply existsb_exists. exists (key r). split; [|now apply same_eq].
  apply nodup_In. now apply in_map.
Qed.

End Grouping.

Section Breakdown.

Variable col : result_row -> string.

Lemma breakdown_keys (rows : list result_row) :
  map fst (breakdown col rows) = nodup string_dec (map col rows).
Proof.
  unfold breakdown. rewrite map_map. apply map_id.
Qed.

Lemma breakdown_counts (rows : list result_row) :
  list_sum (map (fun e => g_count (snd e)) (breakdown col rows)) = List.length rows.
Proof.
  unfold breakdown. rewrite map_map. cbn [snd stats_of_group g_count].
  rewrite (group_counts col String.eqb String.eqb_eq) by apply NoDup_nodup.
  now rewrite (all_members col String.eqb String.eqb_eq).
Qed.

Lemma breakdown_entry (rows : list result_row) (p : string) (g : group_stats) :
  In (p, g) (breakdown col rows) ->
  (exists r, In r rows /\ col r = p) /\
  g_count g = List.length (filter (fun r => String.eqb (col r) p) rows) /\
  (1 <= g_count g)%nat.
Proof.
  unfold breakdown. rewrite in_map_iff. intros (k & E & Hk).
  injection E as -> <-. apply nodup_In, in_map_iff in Hk.
  destruct Hk as (r & Hr & Hin).
  split; [now exists r|]. split; [reflexivity|].
  cbn [stats_of_group g_count].
  assert (Hf : In r (filter (fun r0 => String.eqb (col r0) p) rows)).
  { apply filter_In. split; [exact Hin|]. now apply String.eqb_eq. }
  destruct (filter _ rows); [contradiction|simpl; lia].
Qed.

End Breakdown.

(** X12. The two breakdowns of [get_stats] partition the counted vaults:
    each dictionary has one entry per platform (per vault type) that occurs
    among them, an entry counts the vaults of its platform (type) and at
    least one, and the counts add up to [total_vaults]. *)
Theorem breakdowns_partition_rows (q : request) (now : Z) (db : list vault_snapshot) :
  let rows := stats_rows q now db in
  let a := get_stats q now db in
  NoDup (map fst (by_platform a)) /\ NoDup (map fst (by_type a)) /\
  (forall p, In p (map fst (by_platform a)) <-> exists r, In r rows /\ r_platform r = p) /\
  (forall t, In t (map fst (by_type a)) <-> exists r, In r rows /\ r_vault_type r = t) /\
  (forall p g, In (p, g) (by_platform a) ->
     g_count g = List.length (filter (fun r => String.eqb (r_platform r) p) rows) /\
     (1 <= g_count g)%nat) /\
  (forall t g, In (t, g) (by_type a) ->
     g_count g = List.length (filter (fun r => String.eqb (r_vault_type r) t) rows) /\
     (1 <= g_count g)%nat) /\
  list_sum (map (fun e => g_count (snd e)) (by_platform a)) = total_vaults (st_overall a) /\
  list_sum (map (fun e => g_count (snd e)) (by_type a)) = total_vaults (st_overall a).
Proof.
  intros rows a.
  change (by_platform a) with (breakdown r_platform rows).
  change (by_type a) with (breakdown r_vault_type rows).
  change (st_overall a) with (overall rows).
  rewrite !breakdown_keys.
  split; [apply NoDup_nodup|]. split; [apply NoDup_nodup|].
  split; [|split].
  - intro p. rewrite nodup_In, in_map_iff. split; intros (r & H1 & H2); now exists r.
  - intro t. rewrite nodup_In, in_map_iff. split; intros (r & H1 & H2); now exists r.
  - split; [|split; [|split]].
    + intros p g H. now apply breakdown_entry in H.
    + intros t g H. now apply breakdown_entry in H.
    + apply breakdown_counts.
    + apply breakdown_counts.
Qed.

(** ** [get_stats] beside [query_vaults] *)

Lemma conditions_without_apy (q : request) (r : result_row) :
  conditions q r = true ->
  conditions {| platforms := platforms q;
                q_vault_type := q_vault_type q;
                sort_by := sort_by q;
                sort_order := sort_order q;
                min_apy := None;
                max_apy := None;
                days_back := days_back q;
                min_deposits := min_deposits q |} r = true.
Proof.
  unfold conditions. cbn [platforms q_vault_type min_apy max_apy min_deposits].
  rewrite !andb_true_iff. tauto.
Qed.

Lemma filter_filter_sub {A : Type} (f g : A -> bool) (l : list A) :
  (forall x, f x = true -> g x = true) ->
  filter f (filter g l) = filter f l.
Proof.
  intro H. induction l as [|x l IH]; [reflexivity|].
  simpl. destruct (g x) eqn:G; simpl.
  - now rewrite IH.
  - destruct (f x) eqn:F; [|exact IH].
    apply H in F. congruence.
Qed.

Lemma filter_length_le {A : Type} (f : A -> bool) (l : list A) :
  (List.length (filter f l) <= List.length l)%nat.
Proof.
  induction l as [|x l IH]; simpl; [lia|].
  destruct (f x); simpl; lia.
Qed.

(** X13. [get_stats] counts the vaults [query_vaults] returns for the same
    request, and those that only the APY bounds of the request leave out:
    the answer of the query is, up to its order, the counted rows that pass
    all filters of the request, it is never longer than [total_vaults], and
    it is as long when the request has no APY bound. *)
Theorem stats_cover_query (q : request) (now : Z) (db : list vault_snapshot) :
  Permutation (query_rows q now db) (filter (conditions q) (stats_rows q now db)) /\
  (List.length (query_vaults q now db)
   <= total_vaults (st_overall (get_stats q now db)))%nat /\
  (min_apy q = None -> max_apy q = None ->
   List.length (query_vaults q now db)
   = total_vaults (st_overall (get_stats q now db))).
Proof.
  assert (HP : Permutation (query_rows q now db)
                           (filter (conditions q) (stats_rows q now db))).
  { unfold query_rows, stats_rows.
    rewrite (filter_filter_sub _ _ _ (conditions_without_apy q)).
    apply Permutation_sym, order_by_perm. }
  split; [exact HP|].
  unfold query_vaults. rewrite length_map, (Permutation_length HP).
  cbn [get_stats compute_stats st_overall overall total_vaults].
  split; [apply filter_length_le|].
  intros Hmin Hmax. f_equal. unfold stats_rows.
  destruct q as [ps vt sb so mn mx dbk md]. cbn in Hmin, Hmax. subst mn mx.
  cbn [platforms q_vault_type sort_by sort_order days_back min_deposits].
  apply filter_filter_sub. auto.
Qed.

(** ** The endpoints that read the table directly *)

Lemma py_sum_perm (l l' : list Q) : Permutation l l' -> (py_sum l == py_sum l')%Q.
Proof.
  induction 1 as [|x l l' _ IH|x y l|l l' l'' _ IH1 _ IH2].
  - reflexivity.
  - now rewrite !py_sum_cons, IH.
  - rewrite !py_sum_cons. ring.
  - now rewrite IH1.
Qed.

Lemma known_perm {A : Type} (l l' : list (option A)) :
  Permutation l l' -> Permutation (known l) (known l').
Proof.
  unfold known. induction 1 as [|x l l' _ IH|x y l|l l' l'' _ IH1 _ IH2]; simpl.
  - constructor.
  - now apply Permutation_app_head.
  - rewrite !app_assoc. apply Permutation_app_tail, Permutation_app_comm.
  - now transitivity (flat_map (fun o => match o with Some a => [a] | None => [] end) l').
Qed.

Lemma mean_or_zero_perm (l l' : list Q) :
  Permutation l l' -> (mean_or_zero l == mean_or_zero l')%Q.
Proof.
  intro H. destruct l as [|x l], l' as [|y l'].
  - reflexivity.
  - apply Permutation_nil in H. discriminate.
  - apply Permutation_sym, Permutation_nil in H. discriminate.
  - unfold mean_or_zero, mean.
    now rewrite (py_sum_perm _ _ H), (Permutation_length H).
Qed.

Lemma or_zero_sql_avg (l : list (option Q)) :
  or_zero (sql_avg l) = mean_or_zero (known l).
Proof.
  unfold sql_avg. now destruct (known l).
Qed.

Lemma filter_conj {A : Type} (f g : A -> bool) (l : list A) :
  filter (fun x => f x && g x) l = filter f (filter g l).
Proof.
  induction l as [|x l IH]; [reflexivity|].
  cbn [filter]. destruct (g x) eqn:G; destruct (f x) eqn:F; cbn [andb filter];
    rewrite ?F, IH; reflexivity.
Qed.

Lemma given_spec (o : option string) :
  given o = true <-> exists t, o = Some t /\ t <> EmptyString.
Proof.
  destruct o as [t|]; simpl.
  - rewrite negb_true_iff, String.eqb_neq. split.
    + intro H. now exists t.
    + now intros (t' & [= <-] & H).
  - split; [discriminate|]. now intros (t & H & _).
Qed.

Section StampFacts.

Context {stamp_value : Type}.
Variable stamp : vault_snapshot -> stamp_value.
Variable stamp_eq_dec : forall a b : stamp_value, {a = b} + {a <> b}.
Variable stamp_leb : stamp_value -> stamp_value -> bool.

(** *** [get_vault_history] *)

(** The fetched rows are the rows of the vault inside the window, in some
    order. *)
Lemma history_rows_perm (p n : string) (days : option Z) (now : Z)
    (db : list vault_snapshot) :
  Permutation (history_rows stamp stamp_leb p n days now db)
              (filter (fun r => key_eqb (key_of r) (p, n))
                      (filter (date_condition now days) db)).
Proof.
  unfold history_rows. rewrite <- filter_conj.
  apply Permutation_sym, order_by_perm.
Qed.

Lemma history_rows_samples (p n : string) (days : option Z) (now : Z)
    (db : list vault_snapshot) :
  Permutation (known (map apy_percentage (history_rows stamp stamp_leb p n days now db)))
              (apy_samples (date_condition now days) db (p, n)).
Proof.
  unfold apy_samples. apply known_perm, Permutation_map, history_rows_perm.
Qed.

(** X14. [get_vault_history] answers with status 400 and the message that
    both names are required exactly when the platform or the vault name is
    missing, [None] or empty, whatever the table holds. Otherwise it
    answers for the names it was given: the history is made of the
    snapshots of that vault inside the window, each once, the window being
    30 days when the request has no [days_back], and [avg_apy] is the mean
    of the known APYs of these snapshots, [0] when none is known. The one
    request with both names that is not answered so is a [days_back]
    outside 64 bits, which ends in [OverflowError]. *)
Theorem vault_history_answer (req : history_request) (now : Z)
    (db : list vault_snapshot) :
  match get_vault_history stamp stamp_leb req now db with
  | Json400 e =>
      e = "Platform and vault_name required"%string /\
      (given (h_platform req) = false \/ given (h_vault_name req) = false)
  | Json200 h =>
      let w := date_condition now (days_of (h_days_back req)) in
      let k := (vh_platform h, vh_vault_name h) in
      h_platform req = Some (vh_platform h) /\
      h_vault_name req = Some (vh_vault_name h) /\
      vh_platform h <> EmptyString /\ vh_vault_name h <> EmptyString /\
      days_bound (h_days_back req) = true /\
      (h_days_back req = Absent -> w = date_condition now (Some 30)) /\
      Permutation (vh_history h)
                  (map (history_point_of stamp)
                       (filter (fun r => key_eqb (key_of r) k) (filter w db))) /\
      (vh_avg_apy h == mean_or_zero (apy_samples w db k))%Q
  | Error500 e =>
      e = OverflowError /\
      given (h_platform req) = true /\ given (h_vault_name req) = true /\
      days_bound (h_days_back req) = false
  end.
Proof.
  unfold get_vault_history.
  destruct (given (h_platform req)) eqn:Gp; cbn [negb orb]; [|split; auto].
  destruct (given (h_vault_name req)) eqn:Gn; cbn [negb orb]; [|split; auto].
  apply given_spec in Gp. destruct Gp as (p & Ep & Hp).
  apply given_spec in Gn. destruct Gn as (n & En & Hn).
  rewrite Ep, En.
  destruct (days_bound (h_days_back req)) eqn:Hd; [|now repeat split].
  cbn [vh_platform vh_vault_name vh_history vh_avg_apy].
  repeat (split; [easy|]).
  split; [now intros ->|]. split.
  - apply Permutation_map, history_rows_perm.
  - apply mean_or_zero_perm, history_rows_samples.
Qed.

(** X15. The average APY that [get_vault_history] reports for a vault and
    the average [query_vaults] shows for it are means over the same
    samples, when both look at the same window: for a vault of the query's
    answer and a [days_back] of at most 64 bits read as the query's, the
    history is answered with status 200, [avg_apy] is the mean of the known
    APYs in the order of the history, [average_apy], with [0] in place of
    NULL, is the mean of the APY samples of the vault in the window, and
    the former are the latter in another order; the history is not empty
    when the identifiers of the table are distinct. *)
Theorem history_average_matches_query (q : request) (now : Z)
    (db : list vault_snapshot) (v : vault) (d : days_field) :
  In v (query_vaults q now db) ->
  v_platform v <> EmptyString -> v_vault_name v <> EmptyString ->
  days_of d = days_back q ->
  days_bound d = true ->
  let theirs := apy_samples (date_condition now (days_back q)) db (v_key v) in
  exists h,
    get_vault_history stamp stamp_leb
      {| h_platform := Some (v_platform v);
         h_vault_name := Some (v_vault_name v);
         h_days_back := d |} now db = Json200 h /\
    (exists mine,
        mine = known (map hp_apy (vh_history h)) /\
        vh_avg_apy h = mean_or_zero mine /\
        Permutation mine theirs) /\
    or_zero (v_average_apy v) = mean_or_zero theirs /\
    (NoDup (map id db) -> vh_history h <> []).
Proof.
  intros Hv Hp Hn Hd Hb theirs. unfold theirs.
  apply (query_vaults_In q now db) in Hv. destruct Hv as (r & Hr & ->).
  cbn [vault_of_row join_row v_platform v_vault_name v_average_apy v_key
       r_platform r_vault_name r_average_apy joined ls_of ls_platform
       ls_vault_name] in *.
  unfold get_vault_history. cbn [h_platform h_vault_name h_days_back given].
  apply String.eqb_neq in Hp, Hn. rewrite Hp, Hn, Hb. cbn [negb orb].
  eexists. split; [reflexivity|].
  cbn [vh_history vh_avg_apy]. rewrite Hd. split; [|split].
  - eexists. split; [reflexivity|].
    rewrite map_map. cbn [history_point_of hp_apy].
    split; [reflexivity|].
    exact (history_rows_samples (platform r) (vault_name r) (days_back q) now db).
  - apply or_zero_sql_avg.
  - intros Hnd E. apply map_eq_nil in E.
    pose proof (history_rows_perm (platform r) (vault_name r) (days_back q) now db) as HP.
    rewrite E in HP. apply Permutation_nil in HP.
    assert (Hin : In r (filter (fun r0 => key_eqb (key_of r0) (platform r, vault_name r))
                               (filter (date_condition now (days_back q)) db))).
    { apply (latest_rows_spec _ _ Hnd) in Hr. destruct Hr as (Hr & Hw & _).
      apply filter_In. split; [|now apply key_eqb_eq].
      apply filter_In. now split. }
    rewrite HP in Hin. contradiction.
Qed.

(** *** [get_cumulative_deposits] *)

Lemma last_In {A : Type} (l : list A) (d : A) : l <> [] -> In (List.last l d) l.
Proof.
  intro H. rewrite (app_removelast_last d H) at 2.
  apply in_or_app. right. now left.
Qed.

Lemma known_app {A : Type} (l l' : list (option A)) :
  known (l ++ l') = known l ++ known l'.
Proof. unfold known. apply flat_map_app. Qed.

(** X16. [get_cumulative_deposits] ends in [OverflowError] for a
    [days_back] outside 64 bits and answers with status 200 otherwise, and
    the figures of the answer are consistent: the current value lies
    between the minimum and the maximum, and so does every known total of
    the history; the current value is the total of the last point of the
    history when that total is known; and all four figures are zero when no
    total is known. *)
Theorem cumulative_figures_ordered (req : deposits_request) (now : Z)
    (db : list vault_snapshot) :
  match get_cumulative_deposits stamp stamp_eq_dec stamp_leb req now db with
  | Json200 a =>
      days_bound (d_days_back req) = true /\
      (cd_min_deposits a <= current_deposits a <= cd_max_deposits a)%Q /\
      (forall pt x, In pt (cd_history a) -> dp_total_deposits pt = Some x ->
         (cd_min_deposits a <= x <= cd_max_deposits a)%Q) /\
      (forall before pt x, cd_history a = before ++ [pt] ->
         dp_total_deposits pt = Some x -> current_deposits a = x) /\
      ((forall pt, In pt (cd_history a) -> dp_total_deposits pt = None) ->
         avg_deposits a = 0%Q /\ cd_min_deposits a = 0%Q /\
         cd_max_deposits a = 0%Q /\ current_deposits a = 0%Q)
  | Json400 _ => False
  | Error500 e => e = OverflowError /\ days_bound (d_days_back req) = false
  end.
Proof.
  unfold get_cumulative_deposits.
  destruct (days_bound (d_days_back req)); [|now split].
  cbn [cd_history avg_deposits cd_min_deposits cd_max_deposits current_deposits].
  set (results := deposit_results stamp stamp_eq_dec stamp_leb req now db).
  set (vals := known (map dp_total_deposits results)).
  pose proof (min_max_bounds vals) as Hb. rewrite Forall_forall in Hb.
  split; [reflexivity|]. split; [|split; [|split]].
  - destruct vals as [|x l] eqn:E.
    + simpl. lra.
    + apply Hb. apply last_In. discriminate.
  - intros pt x Hpt Hx. apply Hb. unfold vals. apply known_In.
    rewrite <- Hx. now apply in_map.
  - intros before pt x E Hx. unfold vals. rewrite E, map_app, known_app.
    cbn [map]. rewrite Hx. unfold known at 2. cbn [flat_map app].
    apply last_last.
  - intro Hnone.
    assert (E : vals = []).
    { destruct vals as [|x l] eqn:E; [reflexivity|].
      assert (Hin : In x vals) by (rewrite E; now left).
      unfold vals in Hin. apply known_In, in_map_iff in Hin.
      destruct Hin as (pt & Hx & Hpt). rewrite (Hnone pt Hpt) in Hx. discriminate. }
    rewrite E. repeat split.
Qed.

Lemma deposit_results_perm (req : deposits_request) (now : Z) (db : list vault_snapshot) :
  Permutation (deposit_groups stamp stamp_eq_dec (filter (deposit_condition req now) db))
              (deposit_results stamp stamp_eq_dec stamp_leb req now db).
Proof. apply order_by_perm. Qed.

Lemma deposit_groups_stamps (rows : list vault_snapshot) :
  map dp_timestamp (deposit_groups stamp stamp_eq_dec rows)
  = nodup stamp_eq_dec (map stamp rows).
Proof.
  unfold deposit_groups. rewrite map_map. apply map_id.
Qed.

(** X17. The history [get_cumulative_deposits] answers with has one point
    per stored timestamp among the rows that pass the filters of the
    request: no timestamp occurs twice, the timestamps are those of the
    passing rows, and the total of a point is the SUM of [deposit_amount]
    over the passing rows of its timestamp. *)
Theorem cumulative_history_groups (req : deposits_request) (now : Z)
    (db : list vault_snapshot) :
  let rows := filter (deposit_condition req now) db in
  match get_cumulative_deposits stamp stamp_eq_dec stamp_leb req now db with
  | Json200 a =>
      NoDup (map dp_timestamp (cd_history a)) /\
      (forall s, In s (map dp_timestamp (cd_history a)) <->
                 exists r, In r db /\ deposit_condition req now r = true /\ stamp r = s) /\
      (forall pt, In pt (cd_history a) ->
         dp_total_deposits pt
         = sql_sum (map deposit_amount
                        (filter (same_stamp stamp stamp_eq_dec (dp_timestamp pt)) rows)))
  | Json400 _ => False
  | Error500 e => e = OverflowError /\ days_bound (d_days_back req) = false
  end.
Proof.
  intros rows. unfold get_cumulative_deposits.
  destruct (days_bound (d_days_back req)); [|now split].
  cbn [cd_history].
  pose proof (deposit_results_perm req now db) as HP. fold rows in HP.
  split; [|split].
  - eapply Permutation_NoDup; [apply Permutation_map, HP|].
    rewrite deposit_groups_stamps. apply NoDup_nodup.
  - intro s.
    assert (Hs : In s (map dp_timestamp (deposit_results stamp stamp_eq_dec stamp_leb req now db))
                 <-> In s (nodup stamp_eq_dec (map stamp rows))).
    { rewrite <- deposit_groups_stamps. split; apply Permutation_in.
      - apply Permutation_sym, Permutation_map, HP.
      - apply Permutation_map, HP. }
    rewrite Hs, nodup_In, in_map_iff. unfold rows.
    split; intros (r & H1 & H2).
    + apply filter_In in H2. exists r. tauto.
    + exists r. split; [tauto|]. apply filter_In. tauto.
  - intros pt Hpt. apply (Permutation_in _ (Permutation_sym HP)) in Hpt.
    unfold deposit_groups in Hpt. apply in_map_iff in Hpt.
    destruct Hpt as (s & <- & _). reflexivity.
Qed.

(** *** The order of the two histories *)

Section Ascending.

Hypothesis stamp_leb_total : forall a b, stamp_leb a b = false -> stamp_leb b a = true.
Hypothesis stamp_leb_trans :
  forall a b c, stamp_leb a b = true -> stamp_leb b c = true -> stamp_leb a c = true.

(** X18. Both histories ascend in time: when the order of stored
    timestamps is total and transitive, no point of the history
    [get_cumulative_deposits] or [get_vault_history] answers with stands
    before a point with a smaller timestamp. *)
Theorem histories_ascend (dreq : deposits_request) (hreq : history_request)
    (now : Z) (db : list vault_snapshot) :
  (forall a,
     get_cumulative_deposits stamp stamp_eq_dec stamp_leb dreq now db = Json200 a ->
     StronglySorted (fun a b => stamp_leb (dp_timestamp a) (dp_timestamp b) = true)
       (cd_history a)) /\
  (forall h, get_vault_history stamp stamp_leb hreq now db = Json200 h ->
     StronglySorted (fun a b => stamp_leb (hp_timestamp a) (hp_timestamp b) = true)
       (vh_history h)).
Proof.
  split.
  - intros a Ha. unfold get_cumulative_deposits in Ha.
    destruct (days_bound (d_days_back dreq)); [|discriminate].
    injection Ha as <-. cbn [cd_history]. unfold deposit_results.
    apply order_by_sorted; intros *.
    + apply stamp_leb_total.
    + apply stamp_leb_trans.
  - intros h Hh. unfold get_vault_history in Hh.
    destruct (negb (given (h_platform hreq)) || negb (given (h_vault_name hreq)));
      [discriminate|].
    destruct (h_platform hreq) as [p|]; [|discriminate].
    destruct (h_vault_name hreq) as [n|]; [|discriminate].
    destruct (days_bound (h_days_back hreq)); [|discriminate].
    injection Hh as <-. cbn [vh_history].
    apply (StronglySorted_map (history_point_of stamp)
             (fun a b => stamp_leb (hp_timestamp a) (hp_timestamp b) = true)).
    cbn [history_point_of hp_timestamp]. unfold history_rows.
    apply order_by_sorted; intros *.
    + apply stamp_leb_total.
    + apply stamp_leb_trans.
Qed.

End Ascending.

End StampFacts.

Lemma instant_leb_total (a b : option Z) :
  instant_leb a b = false -> instant_leb b a = true.
Proof.
  destruct a as [x|], b as [y|]; simpl; try easy.
  rewrite Z.leb_gt, Z.leb_le. lia.
Qed.

Lemma instant_leb_trans (a b c : option Z) :
  instant_leb a b = true -> instant_leb b c = true -> instant_leb a c = true.
Proof.
  destruct a as [x|], b as [y|], c as [z|]; simpl; try easy.
  rewrite !Z.leb_le. lia.
Qed.

(** X15 at the sample table: the first vault has the samples 4 and 6. *)
Lemma history_average_matches_query_witness :
  exists h,
    get_vault_history timestamp instant_leb
      {| h_platform := Some "aave"%string;
         h_vault_name := Some "usdc"%string;
         h_days_back := Skipped |} 0 sample_db = Json200 h /\
    Permutation (known (map hp_apy (vh_history h))) [4; 6]%Q.
Proof.
  edestruct (history_average_matches_query timestamp instant_leb
               (sample_request "apy" Desc) 0 sample_db)
    as (h & E & (mine & Hmine & _ & Hperm) & _ & _).
  - left; reflexivity.
  - discriminate.
  - discriminate.
  - instantiate (1 := Skipped). reflexivity.
  - reflexivity.
  - exists h. split; [exact E|]. rewrite <- Hmine. exact Hperm.
Defined.

(** X18 at the sample table, the stored timestamps ordered as instants. *)
Lemma histories_ascend_witness :
  exists a,
    get_cumulative_deposits timestamp instant_eq_dec instant_leb
      all_deposits 0 sample_db = Json200 a /\
    StronglySorted (fun a b => instant_leb (dp_timestamp a) (dp_timestamp b) = true)
      (cd_history a).
Proof.
  eexists. split; [reflexivity|].
  apply (proj1 (histories_ascend timestamp instant_eq_dec instant_leb
                  instant_leb_total instant_leb_trans all_deposits
                  {| h_platform := None; h_vault_name := None; h_days_back := Absent |}
                  0 sample_db)).
  reflexivity.
Defined.

(** *** [get_available_vaults], [get_available_tokens] and [index] *)

Lemma pair_leb_total (a b : vault_key) : pair_leb a b = false -> pair_leb b a = true.
Proof.
  unfold pair_leb. rewrite (String.eqb_sym (fst b) (fst a)).
  destruct (String.eqb (fst a) (fst b)); apply string_leb_false.
Qed.

Lemma pair_leb_trans (a b c : vault_key) :
  pair_leb a b = true -> pair_leb b c = true -> pair_leb a c = true.
Proof.
  unfold pair_leb.
  destruct (String.eqb_spec (fst a) (fst b)) as [Eab|Nab];
    destruct (String.eqb_spec (fst b) (fst c)) as [Ebc|Nbc];
    destruct (String.eqb_spec (fst a) (fst c)) as [Eac|Nac];
    intros H1 H2; try congruence.
  - exact (string_leb_trans _ _ _ H1 H2).
  - exfalso. apply Nab. apply String.leb_antisym; [exact H1|]. now rewrite Eac.
  - exact (string_leb_trans _ _ _ H1 H2).
Qed.

Lemma order_by_NoDup {A : Type} (leb : A -> A -> bool) (l : list A) :
  NoDup l -> NoDup (order_by leb l).
Proof.
  intro H. exact (Permutation_NoDup (order_by_perm leb l) H).
Qed.

Lemma order_by_In {A : Type} (leb : A -> A -> bool) (l : list A) (x : A) :
  In x (order_by leb l) <-> In x l.
Proof.
  split; apply Permutation_in; [apply Permutation_sym|]; apply order_by_perm.
Qed.

Lemma available_keys (req : vaults_request) (db : list vault_snapshot) :
  map (fun a => (av_platform a, av_vault_name a)) (get_available_vaults req db)
  = order_by pair_leb (nodup key_eq_dec (map key_of (filter (vault_condition req) db))).
Proof.
  unfold get_available_vaults. rewrite map_map.
  erewrite map_ext; [apply map_id|]. now intros [p n].
Qed.

(** X19. [get_available_vaults] lists each vault that has a stored row
    passing the filters of the request, and no other, once; an entry's
    display name is the platform, [" - "] and the vault name; and the list
    is sorted by platform and, within a platform, by vault name. *)
Theorem available_vaults_listing (req : vaults_request) (db : list vault_snapshot) :
  let l := get_available_vaults req db in
  let pair := fun a => (av_platform a, av_vault_name a) in
  NoDup (map pair l) /\
  (forall p n, In (p, n) (map pair l) <->
     exists r, In r db /\ vault_condition req r = true /\
               platform r = p /\ vault_name r = n) /\
  (forall a, In a l ->
     display_name a = (av_platform a ++ " - " ++ av_vault_name a)%string) /\
  StronglySorted (fun a b => pair_leb (pair a) (pair b) = true) l.
Proof.
  intros l pair. unfold l, pair. rewrite available_keys.
  split; [|split; [|split]].
  - apply order_by_NoDup, NoDup_nodup.
  - intros p n. rewrite order_by_In, nodup_In, in_map_iff. split.
    + intros (r & E & Hr). apply filter_In in Hr. destruct Hr as [Hr Hc].
      injection E as <- <-. now exists r.
    + intros (r & Hr & Hc & <- & <-). exists r. split; [reflexivity|].
      apply filter_In. now split.
  - unfold get_available_vaults. intros a Ha. apply in_map_iff in Ha.
    now destruct Ha as (k & <- & _).
  - unfold get_available_vaults.
    apply (StronglySorted_map available_of
             (fun a b => pair_leb (av_platform a, av_vault_name a)
                                  (av_platform b, av_vault_name b) = true)).
    eapply StronglySorted_weaken;
      [|apply (order_by_sorted pair_leb pair_leb_total pair_leb_trans)].
    now intros [p n] [p' n'].
Qed.

Lemma conditions_vault_condition (q : request) (r : result_row) (s : vault_snapshot) :
  r_platform r = platform s -> r_vault_type r = vault_type s ->
  conditions q r = true -> vault_condition (vaults_request_of q) s = true.
Proof.
  intros Hp Ht. unfold conditions, vault_condition, platform_condition,
    text_condition, vaults_request_of. cbn [a_platforms a_vault_type opt_test].
  rewrite !andb_true_iff, Hp, Ht. intros ((((H1 & H2) & _) & _) & _).
  split.
  - now destruct (platforms q).
  - destruct (q_vault_type q) as [t|]; [|reflexivity].
    destruct (String.eqb t EmptyString); [reflexivity|].
    now rewrite String.eqb_sym.
Qed.

(** X20. Every vault [query_vaults] returns is offered by
    [get_available_vaults] under the same platform and type filters. *)
Theorem queried_vaults_are_available (q : request) (now : Z)
    (db : list vault_snapshot) (v : vault) :
  In v (query_vaults q now db) ->
  In {| av_platform := v_platform v;
        av_vault_name := v_vault_name v;
        display_name := (v_platform v ++ " - " ++ v_vault_name v)%string |}
     (get_available_vaults (vaults_request_of q) db).
Proof.
  unfold query_vaults. rewrite in_map_iff. intros (row & <- & Hrow).
  apply query_rows_In in Hrow. destruct Hrow as [Hrow Hc].
  rewrite left_join_rows in Hrow. apply in_map_iff in Hrow.
  destruct Hrow as (s & <- & Hs).
  unfold latest_rows in Hs. apply filter_In in Hs. destruct Hs as [Hs _].
  unfold get_available_vaults.
  change (In (available_of (key_of s))
             (map available_of
                  (order_by pair_leb
                     (nodup key_eq_dec
                        (map key_of (filter (vault_condition (vaults_request_of q)) db)))))).
  apply in_map. apply order_by_In, nodup_In, in_map, filter_In.
  split; [exact Hs|].
  now apply (conditions_vault_condition q _ s) in Hc.
Qed.

(** X20 at the sample table. *)
Lemma queried_vaults_are_available_witness :
  In {| av_platform := "aave"%string;
        av_vault_name := "usdc"%string;
        display_name := "aave - usdc"%string |}
     (get_available_vaults (vaults_request_of (sample_request "apy" Desc)) sample_db).
Proof.
  apply (queried_vaults_are_available (sample_request "apy" Desc) 0 sample_db
           (vault_of_row (join_row (fun _ => true) sample_db
                                   (snap 2 200 "aave" "usdc" (Some 6%Q) (Some 1500%Q))))).
  left. reflexivity.
Defined.

(** X21. The lists of [get_available_tokens] and [index] hold the distinct
    values of their column, each once and in ascending order: the tokens
    are the deposit tokens that are not NULL, the platforms and the vault
    types those of the stored rows. *)
Theorem listings_are_distinct_and_sorted (db : list vault_snapshot) :
  let tokens := get_available_tokens db in
  let platform_list := fst (index db) in
  let type_list := snd (index db) in
  let ascending := StronglySorted (fun a b => String.leb a b = true) in
  NoDup tokens /\ NoDup platform_list /\ NoDup type_list /\
  ascending tokens /\ ascending platform_list /\ ascending type_list /\
  (forall t, In t tokens <-> exists r, In r db /\ deposit_token r = Some t) /\
  (forall p, In p platform_list <-> exists r, In r db /\ platform r = p) /\
  (forall t, In t type_list <-> exists r, In r db /\ vault_type r = t).
Proof.
  intros tokens platform_list type_list ascending.
  unfold tokens, platform_list, type_list, ascending, get_available_tokens, index.
  cbn [fst snd].
  repeat (split; [apply order_by_NoDup, NoDup_nodup|]).
  repeat (split; [apply (order_by_sorted String.leb string_leb_false string_leb_trans)|]).
  split; [|split].
  - intro t. rewrite order_by_In, nodup_In, known_In, in_map_iff.
    split; intros (r & H1 & H2); now exists r.
  - intro t. rewrite order_by_In, nodup_In, in_map_iff.
    split; intros (r & H1 & H2); now exists r.
  - intro t. rewrite order_by_In, nodup_In, in_map_iff.
    split; intros (r & H1 & H2); now exists r.
Qed.

(** *** What is shown for an unknown figure *)

Lemma length_append (a b : string) :
  String.length (a ++ b) = (String.length a + String.length b)%nat.
Proof.
  induction a as [|c a IH]; simpl; [reflexivity|now rewrite IH].
Qed.

Lemma two_decimals_length (s : string) : two_decimals s -> (3 <= String.length s)%nat.
Proof.
  intros (whole & d1 & d2 & -> & _). rewrite length_append. simpl. lia.
Qed.

Lemma format_money_known (a : Q) : format_money (Some a) <> "N/A"%string.
Proof.
  intro H. apply (f_equal String.length) in H. revert H.
  unfold format_money.
  destruct (Qle_bool 1000000000 a); [|destruct (Qle_bool 1000000 a);
    [|destruct (Qle_bool 1000 a)]];
    match goal with
    | |- context [format_2f ?x] =>
        pose proof (two_decimals_length _ (format_2f_two_decimals x))
    end;
    cbn [String.append String.length]; rewrite ?length_append; simpl; lia.
Qed.

Lemma format_apy_known (a : Q) : format_apy (Some a) <> "N/A"%string.
Proof.
  intro H. apply (f_equal String.length) in H. revert H.
  unfold format_apy. rewrite length_append.
  pose proof (two_decimals_length _ (format_2f_two_decimals a)).
  simpl. lia.
Qed.

(** X24. The text ["N/A"] stands for an unknown figure and for nothing
    else: [format_money] and [format_apy] return it exactly for [None]; a
    known APY is printed with two decimals and a percent sign; every vault
    in the answer of [query_vaults] shows ["N/A"] for its deposit amount,
    its latest APY and its average APY exactly when that figure is NULL;
    and the formatted totals of [get_stats] are never ["N/A"]. *)
Theorem unknown_is_shown_as_NA :
  (forall amount, format_money amount = "N/A"%string <-> amount = None) /\
  (forall apy, format_apy apy = "N/A"%string <-> apy = None) /\
  (forall a, exists s, format_apy (Some a) = (s ++ "%")%string /\ two_decimals s) /\
  (forall q now db v, In v (query_vaults q now db) ->
     (v_deposit_amount_formatted v = "N/A"%string <-> v_deposit_amount v = None) /\
     (v_latest_apy_formatted v = "N/A"%string <-> v_latest_apy v = None) /\
     (v_average_apy_formatted v = "N/A"%string <-> v_average_apy v = None)) /\
  (forall q now db,
     total_tvl_formatted (st_overall (get_stats q now db)) <> "N/A"%string /\
     avg_tvl_formatted (st_overall (get_stats q now db)) <> "N/A"%string).
Proof.
  assert (Hm : forall amount, format_money amount = "N/A"%string <-> amount = None).
  { intros [a|]; split; try reflexivity; try discriminate.
    intro H. now apply format_money_known in H. }
  assert (Ha : forall apy, format_apy apy = "N/A"%string <-> apy = None).
  { intros [a|]; split; try reflexivity; try discriminate.
    intro H. now apply format_apy_known in H. }
  split; [exact Hm|]. split; [exact Ha|]. split; [|split].
  - intro a. exists (format_2f a). split; [reflexivity|apply format_2f_two_decimals].
  - intros q now db v Hv. unfold query_vaults in Hv. apply in_map_iff in Hv.
    destruct Hv as (r & <- & _). cbn. repeat split; try apply Hm; try apply Ha.
  - intros q now db. split; apply format_money_known.
Qed.

End WebQueryFacts.

(** * hip3.py: reading the table back *)

Module Hip3ViewFacts.

Import Hip3 Hip3View.

Lemma real_desc_leb_total (a b : float) :
  real_desc_leb a b = false -> real_desc_leb b a = true.
Proof.
  unfold real_desc_leb.
  destruct (is_nan b) eqn:Hb; [discriminate|].
  destruct (is_nan a) eqn:Ha; [reflexivity|].
  now apply Hip3Facts.leb_false_leb.
Qed.

Lemma real_desc_leb_trans (a b c : float) :
  real_desc_leb a b = true -> real_desc_leb b c = true -> real_desc_leb a c = true.
Proof.
  unfold real_desc_leb.
  destruct (is_nan c) eqn:Hc; [reflexivity|].
  destruct (is_nan b) eqn:Hb; [discriminate|].
  destruct (is_nan a) eqn:Ha; [discriminate|].
  intros H1 H2. now apply Hip3Facts.leb_trans with b.
Qed.

Lemma latest_leb_total (a b : market_data_row) :
  latest_leb a b = false -> latest_leb b a = true.
Proof.
  unfold latest_leb. rewrite (Z.eqb_sym (timestamp b)).
  destruct (Z.eqb_spec (timestamp a) (timestamp b)) as [E|N].
  - apply real_desc_leb_total.
  - rewrite Z.ltb_ge, Z.ltb_lt. lia.
Qed.

Lemma latest_leb_trans (a b c : market_data_row) :
  latest_leb a b = true -> latest_leb b c = true -> latest_leb a c = true.
Proof.
  unfold latest_leb.
  destruct (Z.eqb_spec (timestamp a) (timestamp b)) as [Eab|Nab];
    destruct (Z.eqb_spec (timestamp b) (timestamp c)) as [Ebc|Nbc];
    destruct (Z.eqb_spec (timestamp a) (timestamp c)) as [Eac|Nac];
    rewrite ?Z.ltb_lt; intros H1 H2; try lia.
  now apply real_desc_leb_trans with (volume_24h b).
Qed.

Lemma sorted_app_cross {A : Type} (R : A -> A -> Prop) (l1 l2 : list A) :
  StronglySorted R (l1 ++ l2) ->
  forall x y, In x l1 -> In y l2 -> R x y.
Proof.
  induction l1 as [|a l1 IH]; intros H x y Hx Hy; [contradiction|].
  simpl in H. apply StronglySorted_inv in H. destruct H as [Hs Ha].
  destruct Hx as [<-|Hx].
  - rewrite Forall_forall in Ha. apply Ha. apply in_or_app. now right.
  - now apply IH.
Qed.

Lemma sorted_firstn {A : Type} (R : A -> A -> Prop) (n : nat) (l : list A) :
  StronglySorted R l -> StronglySorted R (firstn n l).
Proof.
  intro H. revert n. induction H as [|a l Hl IH Ha]; intros [|n]; simpl;
    try constructor.
  - apply IH.
  - rewrite Forall_forall in *. intros x Hx. apply Ha.
    rewrite <- (firstn_skipn n l). apply in_or_app. now left.
Qed.

Lemma sql_limit_split {A : Type} (limit : Z) (rows : list A) :
  exists rest, rows = sql_limit limit rows ++ rest.
Proof.
  unfold sql_limit. destruct (limit <? 0).
  - exists []. now rewrite app_nil_r.
  - exists (skipn (Z.to_nat limit) rows). now rewrite firstn_skipn.
Qed.

Lemma forallb_false_map {A B : Type} (f : A -> B) (p : B -> bool) (l : list A) :
  forallb p (map f l) = false -> exists x, In x l /\ p (f x) = false.
Proof.
  induction l as [|a l IH]; simpl; [discriminate|].
  destruct (p (f a)) eqn:E; simpl.
  - intro H. destruct (IH H) as (x & Hx & Hp). exists x. auto.
  - intros _. exists a. auto.
Qed.

(** X22. [view_latest_data] with an int [limit] outside 64 bits raises
    [OverflowError] at [execute]. With any other [limit] the fetched rows
    are rows of the table, at most [limit] of them when the limit is not
    negative and all of them when it is; they are ordered by timestamp,
    latest first, and by 24h volume, largest first and NULL last, within
    one timestamp; a row that is left out would stand behind every fetched
    row in that order; the function reports that there is no data exactly
    when the table is empty or the limit is zero; it prints the fetched
    rows and nothing else when it prints records; and it raises only
    [TypeError], and only for a fetched row with a NULL in a REAL column. *)
Theorem view_latest_shows_top_rows (limit : Z) (db : market_db) :
  let rows := latest_rows limit db in
  if in_int64 limit
  then
    (forall r, In r rows -> In r (table db)) /\
    List.length rows
    = (if limit <? 0 then List.length (table db)
       else Nat.min (Z.to_nat limit) (List.length (table db))) /\
    StronglySorted (fun a b => latest_leb a b = true) rows /\
    (exists rest, Permutation (table db) (rows ++ rest) /\
       forall r r', In r rows -> In r' rest -> latest_leb r r' = true) /\
    (view_latest_data limit db = Ok NoData <-> table db = [] \/ limit = 0) /\
    (forall shown,
        view_latest_data limit db = Ok (Records shown) ->
        shown = map selected rows /\
        Forall (fun r => record_printable r = true) shown) /\
    (forall e,
        view_latest_data limit db = Raise e ->
        e = TypeError /\
        exists r, In r rows /\ record_printable (selected r) = false)
  else view_latest_data limit db = Raise OverflowError.
Proof.
  intro rows. unfold view_latest_data.
  destruct (in_int64 limit); [|reflexivity].
  fold rows. unfold rows, latest_rows.
  pose proof (WebQueryFacts.order_by_perm latest_leb (table db)) as HP.
  pose proof (WebQueryFacts.order_by_sorted latest_leb latest_leb_total
                latest_leb_trans (table db)) as HS.
  set (sorted := WebQuery.order_by latest_leb (table db)) in *.
  destruct (sql_limit_split limit sorted) as (rest & Hrest).
  assert (Hlen : List.length (sql_limit limit sorted)
                 = if limit <? 0 then List.length (table db)
                   else Nat.min (Z.to_nat limit) (List.length (table db))).
  { unfold sql_limit. rewrite (Permutation_length HP).
    destruct (limit <? 0); [reflexivity|apply length_firstn]. }
  split; [|split; [|split; [|split; [|split; [|split]]]]].
  - intros r Hr. apply (Permutation_in _ (Permutation_sym HP)).
    rewrite Hrest. apply in_or_app. now left.
  - exact Hlen.
  - unfold sql_limit. destruct (limit <? 0); [exact HS|now apply sorted_firstn].
  - exists rest. split; [now rewrite <- Hrest|].
    rewrite Hrest in HS. exact (sorted_app_cross _ _ _ HS).
  - assert (Hnil : map selected (sql_limit limit sorted) = []
                   <-> List.length (sql_limit limit sorted) = 0%nat).
    { rewrite <- (length_map selected). apply iff_sym, length_zero_iff_nil. }
    assert (Hout : match map selected (sql_limit limit sorted) with
                   | [] => Ok NoData
                   | row :: l =>
                       if forallb record_printable (row :: l)
                       then Ok (Records (row :: l))
                       else Raise TypeError
                   end = Ok NoData
                   <-> map selected (sql_limit limit sorted) = []).
    { destruct (map selected (sql_limit limit sorted)) as [|row l];
        [tauto|].
      destruct (forallb record_printable (row :: l)); split; discriminate. }
    rewrite Hout, Hnil, Hlen, <- (length_zero_iff_nil (table db)).
    destruct (Z.ltb_spec limit 0) as [Hneg|Hpos]; [split; [tauto|]; lia|].
    destruct (List.length (table db)); lia.
  - intros shown.
    destruct (map selected (sql_limit limit sorted)) as [|row l] eqn:E;
      [discriminate|].
    destruct (forallb record_printable (row :: l)) eqn:Hp; [|discriminate].
    intro H. injection H as <-. split; [reflexivity|].
    apply Forall_forall. now apply forallb_forall.
  - intros e.
    destruct (map selected (sql_limit limit sorted)) as [|row l] eqn:E;
      [discriminate|].
    destruct (forallb record_printable (row :: l)) eqn:Hp; [discriminate|].
    intro H. injection H as <-. split; [reflexivity|].
    rewrite <- E in Hp. now apply forallb_false_map.
Qed.





End Hip3ViewFacts.
